(** * PingPong_tracker: the particle filter and the Hough tracker of
    [motion_tracker.py]

    A shallow embedding of class [motionTracker].  The numeric code is
    written once, over an interface [Num] for the arithmetic of numpy's
    [float64] arrays, and read at two instances:

    - [binary64], IEEE 754 double precision (Rocq's primitive floats), the
      arithmetic the program runs: division by zero is not a fault but
      yields an infinity or NaN, and NaN propagates;
    - [exact], the real numbers, for the algebraic properties that the
      formulas have before rounding.

    Random draws ([np.random.normal], [np.random.uniform]) are inputs of the
    functions that consume them. *)

From Stdlib Require Import List ZArith Bool Lia Floats.
From Stdlib Require Import Reals Lra.
From Stdlib Require Import Ascii.
Import ListNotations.

Set Implicit Arguments.

(** ** Arithmetic *)

Class Num (F : Type) : Type := {
  fzero : F;
  fone : F;
  fadd : F -> F -> F;
  fsub : F -> F -> F;
  fmul : F -> F -> F;
  fdiv : F -> F -> F;
  fsqrt : F -> F;
  fabs : F -> F;
  fleb : F -> F -> bool;
  fltb : F -> F -> bool;
  (** conversion of a Python [int] to a float *)
  of_int : Z -> F;
  (** Python's [int(x)]: truncation toward zero; [None] where Python raises
      ([ValueError] on NaN, [OverflowError] on an infinity) *)
  to_int : F -> option Z
}.

Declare Scope num_scope.
Delimit Scope num_scope with num.
Notation "a + b" := (fadd a b) : num_scope.
Notation "a - b" := (fsub a b) : num_scope.
Notation "a * b" := (fmul a b) : num_scope.
Notation "a / b" := (fdiv a b) : num_scope.
Notation "a <=? b" := (fleb a b) : num_scope.
Notation "a <? b" := (fltb a b) : num_scope.

(** Truncation of a binary64 value, read off its sign, mantissa and
    exponent. *)
Definition float_to_int (x : float) : option Z :=
  match Prim2SF x with
  | S754_zero _ => Some 0%Z
  | S754_finite s m e =>
      let v := if (0 <=? e)%Z then (Zpos m * 2 ^ e)%Z
               else (Zpos m / 2 ^ (- e))%Z in
      Some (if s then (- v)%Z else v)
  | S754_infinity _ => None
  | S754_nan => None
  end.

Definition float_of_int (z : Z) : float :=
  SF2Prim (binary_normalize prec emax z 0 false).

#[export] Instance binary64 : Num float := {
  fzero := 0%float;
  fone := 1%float;
  fadd := PrimFloat.add;
  fsub := PrimFloat.sub;
  fmul := PrimFloat.mul;
  fdiv := PrimFloat.div;
  fsqrt := PrimFloat.sqrt;
  fabs := PrimFloat.abs;
  fleb := PrimFloat.leb;
  fltb := PrimFloat.ltb;
  of_int := float_of_int;
  to_int := float_to_int
}.

Definition Rleb (a b : R) : bool := if Rle_dec a b then true else false.
Definition Rltb (a b : R) : bool := if Rlt_dec a b then true else false.
Definition Rtrunc (a : R) : Z :=
  if Rle_dec 0 a then Int_part a else (- Int_part (- a))%Z.

#[export] Instance exact : Num R := {
  fzero := 0%R;
  fone := 1%R;
  fadd := Rplus;
  fsub := Rminus;
  fmul := Rmult;
  fdiv := Rdiv;
  fsqrt := sqrt;
  fabs := Rabs;
  fleb := Rleb;
  fltb := Rltb;
  of_int := IZR;
  to_int := fun a => Some (Rtrunc a)
}.

(** ** Arrays

    A one-dimensional array is a list.  A two-dimensional array of shape
    [(R, C)] that the program only reads and writes a column at a time
    ([current_state], [particle_histograms], the noise draws) is the list of
    its [C] columns, each a list of length [R]; a reduction along [axis=0]
    is then a reduction of each column. *)

Section Arrays.
Context {F : Type} `{Num F}.
Local Open Scope num_scope.

(** [a.sum()]: 0.0 on the empty array, else the elements added up from
    the first. *)
Definition np_sum (a : list F) : F :=
  match a with
  | [] => fzero
  | x :: t => fold_left fadd t x
  end.

(** [np.cumsum(a)] *)
Fixpoint cumsum_from (acc : F) (a : list F) : list F :=
  match a with
  | [] => []
  | x :: t => (acc + x) :: cumsum_from (acc + x) t
  end.

Definition np_cumsum (a : list F) : list F :=
  match a with
  | [] => []
  | x :: t => x :: cumsum_from x t
  end.

(** elementwise product of two arrays of one shape *)
Fixpoint np_multiply (a b : list F) : list F :=
  match a, b with
  | x :: a', y :: b' => (x * y) :: np_multiply a' b'
  | _, _ => []
  end.

(** [a / a.sum(axis=0)] on one column *)
Definition normalize (a : list F) : list F :=
  map (fun v => v / np_sum a) a.

(** [np.dot(u, v)] of two vectors *)
Definition dot (u v : list F) : F := np_sum (np_multiply u v).

(** [np.dot(M, v)]: [M] is given by its rows. *)
Definition matvec (M : list (list F)) (v : list F) : list F :=
  map (fun row => dot row v) M.

(** elementwise sum of two vectors *)
Fixpoint np_add (a b : list F) : list F :=
  match a, b with
  | x :: a', y :: b' => (x + y) :: np_add a' b'
  | _, _ => []
  end.

(** [np.identity(n)], by rows *)
Definition np_identity (n : nat) : list (list F) :=
  map (fun i => map (fun j => if Nat.eqb i j then fone else fzero) (seq 0 n))
      (seq 0 n).

(** [np.diag(d)], by rows *)
Definition np_diag (d : list F) : list (list F) :=
  map (fun i => map (fun j => if Nat.eqb i j then nth i d fzero else fzero)
                    (seq 0 (length d)))
      (seq 0 (length d)).

(** [l[i] = v] for [i] in range *)
Fixpoint list_set {A : Type} (l : list A) (i : nat) (v : A) : list A :=
  match l, i with
  | [], _ => []
  | _ :: t, O => v :: t
  | x :: t, S j => x :: list_set t j v
  end.

(** [M[i, j] = v] *)
Definition mat_set (M : list (list F)) (i j : nat) (v : F) : list (list F) :=
  list_set M i (list_set (nth i M []) j v).

End Arrays.

(** Python's [l[start:stop]]: a negative bound counts from the end, and
    bounds past either end are clipped. *)
Definition slice_index (len i : Z) : Z :=
  if (i <? 0)%Z then Z.max (i + len) 0 else Z.min i len.

Definition py_slice {A : Type} (start stop : Z) (l : list A) : list A :=
  let len := Z.of_nat (length l) in
  let a := slice_index len start in
  let b := slice_index len stop in
  firstn (Z.to_nat (b - a)) (skipn (Z.to_nat a) l).

(** [np.histogram(a, bins=n_bins, range=(0, 256))[0]] on integer pixel
    values: [n_bins] equal bins over [0, 256], the last one closed; values
    outside the range are not counted. *)
Definition bin_of (n_bins : nat) (v : Z) : option nat :=
  if ((0 <=? v) && (v <=? 256))%Z then
    Some (if (v =? 256)%Z then (n_bins - 1)%nat
          else Z.to_nat (v * Z.of_nat n_bins / 256))
  else None.

Definition in_bin (n_bins k : nat) (v : Z) : bool :=
  match bin_of n_bins v with
  | Some j => Nat.eqb j k
  | None => false
  end.

Definition np_histogram (n_bins : nat) (a : list Z) : list Z :=
  map (fun k => Z.of_nat (length (filter (in_bin n_bins k) a))) (seq 0 n_bins).

(** [mapM] for [option]: a loop whose body may raise. *)
Fixpoint traverse {A B : Type} (f : A -> option B) (l : list A)
  : option (list B) :=
  match l with
  | [] => Some []
  | x :: t =>
      match f x with
      | None => None
      | Some y =>
          match traverse f t with
          | None => None
          | Some ys => Some (y :: ys)
          end
      end
  end.

(** ** The particle filter

    A step that can raise returns an [option]; [None] stands for the
    exception. *)

(** [self.target_ROI]: the keys of the dictionary that the filter reads.
    The grayscale crop is a list of pixel rows. *)
Record target_ROI (F : Type) : Type := {
  image_gray : list (list Z);
  height : Z;
  width : Z;
  target_midpoint_x : F;
  target_midpoint_y : F
}.

(** The fields of [motionTracker] that the filter steps read and write.
    [n_particles] is the number of columns of [current_state]. *)
Record tracker (F : Type) : Type := {
  roi : target_ROI F;
  n_bins : nat;
  measurement_noise_sigma : Z;
  V_process_noise : list (list F);
  target_hist_values : list F;
  current_state : list (list F);
  particle_boxes : list (list F);
  particle_histograms : list (list F);
  particle_betas : list F;
  mmse_estimate : list F;
  mmse_estimate_box : list F
}.

Definition n_states : nat := 4.

Section ParticleFilter.
Context {F : Type} `{Num F}.
Local Open Scope num_scope.

(** [get_ROI], from the rectangle [r = (x, y, w, h)] that [cv2.selectROI]
    returns (four integers) and the grayscale frame.  The key ['height']
    receives the extent along x, [r[2]], and ['width'] the extent along y,
    [r[3]]. *)
Definition get_ROI (r : Z * Z * Z * Z) (img_gray : list (list Z))
  : target_ROI F :=
  let '(r0, r1, r2, r3) := r in
  let width := ((r1 + r3) - r1)%Z in
  let height := ((r0 + r2) - r0)%Z in
  {| image_gray :=
       map (py_slice r0 (r0 + r2)) (py_slice r1 (r1 + r3) img_gray);
     height := height;
     width := width;
     target_midpoint_x := of_int r0 + of_int height / of_int 2;
     target_midpoint_y := of_int r1 + of_int width / of_int 2 |}.

(** [get_target_hist]: [self.target_hist['values']] *)
Definition get_target_hist (n_bins : nat) (t : target_ROI F) : list F :=
  map of_int (np_histogram n_bins (concat (image_gray t))).

(** [compute_process_noise_variance] *)
Definition compute_process_noise_variance
    (process_noise_pos_sigma process_noise_vel_sigma : F) : list (list F) :=
  np_diag [process_noise_pos_sigma; process_noise_pos_sigma;
           process_noise_vel_sigma; process_noise_vel_sigma].

(** The matrix [A] that [propagate_particles] builds. *)
Definition transition_matrix (dt : F) : list (list F) :=
  mat_set (mat_set (np_identity n_states) 0 2 dt) 1 3 dt.

(** The new [current_state] of [propagate_particles]: [normal] is the
    array that [np.random.normal(size=(n_states, n_particles))] returns, by
    columns. *)
Fixpoint propagate_columns (A V : list (list F))
    (state normal : list (list F)) : list (list F) :=
  match state, normal with
  | s :: state', z :: normal' =>
      np_add (matvec A s) (matvec V z) :: propagate_columns A V state' normal'
  | _, _ => []
  end.

(** [propagate_particles] *)
Definition propagate_particles (dt : F) (normal : list (list F))
    (t : tracker F) : tracker F :=
  {| roi := roi t; n_bins := n_bins t;
     measurement_noise_sigma := measurement_noise_sigma t;
     V_process_noise := V_process_noise t;
     target_hist_values := target_hist_values t;
     current_state :=
       propagate_columns (transition_matrix dt) (V_process_noise t)
                         (current_state t) normal;
     particle_boxes := particle_boxes t;
     particle_histograms := particle_histograms t;
     particle_betas := particle_betas t;
     mmse_estimate := mmse_estimate t;
     mmse_estimate_box := mmse_estimate_box t |}.

(** The box that [update_particles_histograms] and
    [compute_MMSE_estimate] put around a point. *)
Definition box_around (t : target_ROI F) (x y : F) : list F :=
  [x - of_int (height t) / of_int 2;
   y - of_int (width t) / of_int 2;
   x + of_int (height t) / of_int 2;
   y + of_int (width t) / of_int 2].

(** [image_grayscale[int(box[1]):int(box[3]), int(box[0]):int(box[2])]] *)
Definition crop (image_grayscale : list (list Z)) (box : list F)
  : option (list (list Z)) :=
  match to_int (nth 1 box fzero), to_int (nth 3 box fzero),
        to_int (nth 0 box fzero), to_int (nth 2 box fzero) with
  | Some r0, Some r1, Some c0, Some c1 =>
      Some (map (py_slice c0 c1) (py_slice r0 r1 image_grayscale))
  | _, _, _, _ => None
  end.

(** One turn of the loop of [update_particles_histograms]: the box and
    the histogram of one particle. *)
Definition particle_histogram (t : target_ROI F) (n_bins : nat)
    (image_grayscale : list (list Z)) (s : list F)
  : option (list F * list F) :=
  let box := box_around t (nth 0 s fzero) (nth 1 s fzero) in
  match crop image_grayscale box with
  | None => None
  | Some im_crop =>
      Some (box, map of_int (np_histogram n_bins (concat im_crop)))
  end.

(** [update_particles_histograms], on the grayscale frame *)
Definition update_particles_histograms (image_grayscale : list (list Z))
    (t : tracker F) : option (tracker F) :=
  match traverse (particle_histogram (roi t) (n_bins t) image_grayscale)
                 (current_state t) with
  | None => None
  | Some bh =>
      Some {| roi := roi t; n_bins := n_bins t;
              measurement_noise_sigma := measurement_noise_sigma t;
              V_process_noise := V_process_noise t;
              target_hist_values := target_hist_values t;
              current_state := current_state t;
              particle_boxes := map fst bh;
              particle_histograms := map snd bh;
              particle_betas := particle_betas t;
              mmse_estimate := mmse_estimate t;
              mmse_estimate_box := mmse_estimate_box t |}
  end.

(** The distance of one measured histogram (one column of [h_measured])
    from the normalized target. *)
Definition hellinger (h_measured h_target : list F) : F :=
  let h_measured_n := normalize h_measured in
  let h_target_n := normalize h_target in
  fsqrt (fone - np_sum (map fsqrt (np_multiply h_measured_n h_target_n))).

(** [compute_hellinger_distance]: [h_measured] has one column per
    particle, of the length of [h_target]. *)
Definition compute_hellinger_distance (h_measured : list (list F))
    (h_target : list F) : list F :=
  map (fun column => hellinger column h_target) h_measured.

(** [scipy.stats.norm.pdf(x, loc, scale)] *)
Variable norm_pdf : F -> F -> F -> F.

(** The array [normal_density_values] of [compute_particle_betas];
    [1 / self.measurement_noise_sigma] divides two Python numbers and raises
    on zero. *)
Definition density_values (sigma : Z) (h_measured : list (list F))
    (h_target : list F) : option (list F) :=
  if (sigma =? 0)%Z then None
  else
    let d_hellinger := compute_hellinger_distance h_measured h_target in
    Some (map (fun d => norm_pdf d fzero (of_int 1 / of_int sigma))
              d_hellinger).

(** [normal_density_values / normal_density_values.sum()] *)
Definition compute_betas (sigma : Z) (h_measured : list (list F))
    (h_target : list F) : option (list F) :=
  option_map normalize (density_values sigma h_measured h_target).

(** [compute_particle_betas] *)
Definition compute_particle_betas (t : tracker F) : option (tracker F) :=
  match compute_betas (measurement_noise_sigma t) (particle_histograms t)
                      (target_hist_values t) with
  | None => None
  | Some betas =>
      Some {| roi := roi t; n_bins := n_bins t;
              measurement_noise_sigma := measurement_noise_sigma t;
              V_process_noise := V_process_noise t;
              target_hist_values := target_hist_values t;
              current_state := current_state t;
              particle_boxes := particle_boxes t;
              particle_histograms := particle_histograms t;
              particle_betas := betas;
              mmse_estimate := mmse_estimate t;
              mmse_estimate_box := mmse_estimate_box t |}
  end.

End ParticleFilter.

Section Resampling.
Context {F : Type} `{Num F}.
Local Open Scope num_scope.

(** [np.asarray(randuni <= beta_cumsum).nonzero()[0]]: the indices, in
    increasing order, at which the comparison holds. *)
Fixpoint nonzero_from (i : nat) (randuni : F) (beta_cumsum : list F)
  : list nat :=
  match beta_cumsum with
  | [] => []
  | c :: rest =>
      if randuni <=? c then i :: nonzero_from (S i) randuni rest
      else nonzero_from (S i) randuni rest
  end.

(** [index = res[0][0] if res[0].size > 0 else 0] *)
Definition select_index (randuni : F) (beta_cumsum : list F) : nat :=
  match nonzero_from 0 randuni beta_cumsum with
  | j :: _ => j
  | [] => 0
  end.

(** The loop of [resample_particles] over the columns [i = 0 .. N-1]:
    [uniform i] is the value that the [i]-th call of
    [np.random.uniform()] returns; reading a column that [prior] does not
    have raises. *)
Definition resample_columns (prior : list (list F)) (betas : list F)
    (uniform : nat -> F) : option (list (list F)) :=
  let beta_cumsum := np_cumsum betas in
  traverse (fun i => nth_error prior (select_index (uniform i) beta_cumsum))
           (seq 0 (length prior)).

(** [resample_particles] *)
Definition resample_particles (uniform : nat -> F) (t : tracker F)
  : option (tracker F) :=
  match resample_columns (current_state t) (particle_betas t) uniform with
  | None => None
  | Some resampled =>
      Some {| roi := roi t; n_bins := n_bins t;
              measurement_noise_sigma := measurement_noise_sigma t;
              V_process_noise := V_process_noise t;
              target_hist_values := target_hist_values t;
              current_state := resampled;
              particle_boxes := particle_boxes t;
              particle_histograms := particle_histograms t;
              particle_betas := particle_betas t;
              mmse_estimate := mmse_estimate t;
              mmse_estimate_box := mmse_estimate_box t |}
  end.

(** Row [k] of an array given by its columns. *)
Definition row (k : nat) (M : list (list F)) : list F :=
  map (fun column => nth k column fzero) M.

(** [M.mean(axis=1)] of an array of [n_states] rows: each row summed and
    divided by the number of columns. *)
Definition mean_axis1 (M : list (list F)) : list F :=
  map (fun k => np_sum (row k M) / of_int (Z.of_nat (length M)))
      (seq 0 n_states).

(** [compute_MMSE_estimate] *)
Definition compute_MMSE_estimate (t : tracker F) : tracker F :=
  let estimate := mean_axis1 (current_state t) in
  {| roi := roi t; n_bins := n_bins t;
     measurement_noise_sigma := measurement_noise_sigma t;
     V_process_noise := V_process_noise t;
     target_hist_values := target_hist_values t;
     current_state := current_state t;
     particle_boxes := particle_boxes t;
     particle_histograms := particle_histograms t;
     particle_betas := particle_betas t;
     mmse_estimate := estimate;
     mmse_estimate_box :=
       box_around (roi t) (nth 0 estimate fzero) (nth 1 estimate fzero) |}.

Variable norm_pdf : F -> F -> F -> F.

(** [update_particles] *)
Definition update_particles (image_grayscale : list (list Z))
    (uniform : nat -> F) (t : tracker F) : option (tracker F) :=
  match update_particles_histograms image_grayscale t with
  | None => None
  | Some t1 =>
      match compute_particle_betas norm_pdf t1 with
      | None => None
      | Some t2 =>
          match resample_particles uniform t2 with
          | None => None
          | Some t3 => Some (compute_MMSE_estimate t3)
          end
      end
  end.

End Resampling.

(** ** The Hough tracker *)

Inductive exn : Type := IndexError | TypeError.

Inductive result (A : Type) : Type :=
| Ok (a : A)
| Raise (e : exn).
Arguments Ok {A} a.
Arguments Raise {A} e.

Definition bind {A B : Type} (m : result A) (k : A -> result B) : result B :=
  match m with
  | Ok a => k a
  | Raise e => Raise e
  end.

Notation "x <- m ;; k" := (bind m (fun x => k))
  (at level 61, m at next level, right associativity).

(** [a[i]] and [a[i] = v] on the first axis of a numpy array: a negative
    index counts from the end, an index out of range raises. *)
Definition np_index {A : Type} (a : list A) (i : Z) : result nat :=
  let len := Z.of_nat (length a) in
  let j := if (i <? 0)%Z then (i + len)%Z else i in
  if ((0 <=? j) && (j <? len))%Z then Ok (Z.to_nat j) else Raise IndexError.

Definition np_get {A : Type} (a : list A) (i : Z) : result A :=
  j <- np_index a i ;;
  match nth_error a j with
  | Some v => Ok v
  | None => Raise IndexError
  end.

Definition np_put {A : Type} (a : list A) (i : Z) (v : A) : result (list A) :=
  j <- np_index a i ;; Ok (list_set a j v).

(** [a[i, ...] = ...] on a part of row [i] *)
Definition np_update {A : Type} (a : list A) (i : Z) (f : A -> A)
  : result (list A) :=
  v <- np_get a i ;; np_put a i (f v).

(** The arrays that [track_ball_hough] keeps from frame to frame; a row of
    [ball_center] and of [ball_center_vel] is a pair. *)
Record hough (F : Type) : Type := {
  frame_count : Z;
  ball_center : list (F * F);
  ball_radius : list F;
  ball_center_vel : list (F * F)
}.

Definition PINGPONG_DIAMETER_CM : Z := 4.

Section Hough.
Context {F : Type} `{Num F}.
Local Open Scope num_scope.

(** The loop over the detected circles [(x, y, radius)].  Its state is
    [min_distance], [new_pos] and [self.ball_radius]. *)
Fixpoint select_circle (target_radius frame : Z) (circles : list (F * F * F))
    (min_distance : F) (new_pos : F * F) (radius : list F)
  : result (F * (F * F) * list F) :=
  match circles with
  | [] => Ok (min_distance, new_pos, radius)
  | (cx, cy, cr) :: rest =>
      if (min_distance <? fzero)
         || (fabs (cr - of_int target_radius) <? min_distance)
      then
        radius' <- np_put radius frame cr ;;
        select_circle target_radius frame rest min_distance (cx, cy) radius'
      else
        select_circle target_radius frame rest min_distance new_pos radius
  end.

(** [x * cm_per_pixel], where [cm_per_pixel] may be [None] *)
Definition mul_cm (x : F) (cm_per_pixel : option F) : result F :=
  match cm_per_pixel with
  | Some c => Ok (x * c)
  | None => Raise TypeError
  end.

(** The state-changing part of [track_ball_hough]; [circles] is what
    [cv2.HoughCircles] returns, [None] or the detected circles.  An
    exception ends the call: the result is the exception, and the writes
    made to the arrays before it are not reported. *)
Definition track_ball_hough (circles : option (list (F * F * F)))
    (target_radius : Z) (dt : F) (t : hough F) : result (hough F) :=
  let frame := (frame_count t + 1)%Z in
  let min_distance := of_int (-1) in
  match circles with
  | None =>
      Ok {| frame_count := frame; ball_center := ball_center t;
            ball_radius := ball_radius t;
            ball_center_vel := ball_center_vel t |}
  | Some cs =>
      new_pos <- (if (0 <? frame)%Z then np_get (ball_center t) (frame - 1)
                  else Ok (fzero, fzero)) ;;
      sel <- select_circle target_radius frame cs min_distance new_pos
                           (ball_radius t) ;;
      let '(_, new_pos, radius) := sel in
      vel <- (if (0 <? frame)%Z then
                r <- np_get radius frame ;;
                let cm_per_pixel :=
                  if fzero <? r
                  then Some (of_int PINGPONG_DIAMETER_CM / (of_int 2 * r))
                  else None in
                prev <- np_get (ball_center t) (frame - 1) ;;
                vx <- mul_cm ((fst new_pos - fst prev) / dt) cm_per_pixel ;;
                vel1 <- np_update (ball_center_vel t) frame
                                  (fun v => (vx, snd v)) ;;
                vy <- mul_cm ((snd new_pos - snd prev) / dt) cm_per_pixel ;;
                np_update vel1 frame (fun v => (fst v, vy))
              else Ok (ball_center_vel t)) ;;
      center <- np_put (ball_center t) frame new_pos ;;
      Ok {| frame_count := frame; ball_center := center;
            ball_radius := radius; ball_center_vel := vel |}
  end.

End Hough.

(** ** Reference notions

    What the properties below compare the program with. *)

(** A particle as a tuple [(x, y, vx, vy)], and as a column of
    [current_state]. *)
Definition col4 {F : Type} (s : F * F * F * F) : list F :=
  let '(a, b, c, d) := s in [a; b; c; d].

(** The sum of a list of reals, by recursion on the list. *)
Definition total (l : list R) : R := fold_right Rplus 0%R l.




(** The density of the normal distribution, as [scipy.stats.norm.pdf]
    documents it, over the reals. *)
Definition gaussian_pdf (x loc scale : R) : R :=
  (let y := (x - loc) / scale in
   exp (- (y * y) / 2) / sqrt (2 * PI) / scale)%R.





(** ** Sample inputs *)

(** A frame of two rows and three columns, and the target that the
    rectangle [(0, 0, 2, 2)] selects in it. *)
Definition sample_frame : list (list Z) := [[10; 20; 30]; [40; 50; 60]]%Z.

Definition sample_roi {F : Type} `{Num F} : target_ROI F :=
  get_ROI (0, 0, 2, 2)%Z sample_frame.

(** Two particles, the first on the target, the second beyond the frame. *)
Definition sample_tracker {F : Type} `{Num F} : tracker F :=
  let far := of_int 9 in
  {| roi := sample_roi;
     n_bins := 4;
     measurement_noise_sigma := 20;
     V_process_noise := compute_process_noise_variance (of_int 25) (of_int 20);
     target_hist_values := get_target_hist 4 sample_roi;
     current_state := [[fone; fone; fzero; fzero]; [far; far; fzero; fzero]];
     particle_boxes := [[fzero; fzero; fzero; fzero];
                        [fzero; fzero; fzero; fzero]];
     particle_histograms := [[fone; fone; fzero; fzero];
                             [fzero; fone; fone; fzero]];
     particle_betas := [fdiv fone (of_int 4); fdiv (of_int 3) (of_int 4)];
     mmse_estimate := [fzero; fzero; fzero; fzero];
     mmse_estimate_box := [fzero; fzero; fzero; fzero] |}.

(** The arrays of the Hough tracker for two frames, before the first frame
    and after a first frame that found the ball at [(8, 8)] with radius
    26. *)
Definition hough_start : hough float :=
  {| frame_count := -1;
     ball_center := [(0, 0); (0, 0)]%float;
     ball_radius := [0; 0]%float;
     ball_center_vel := [(0, 0); (0, 0)]%float |}.

Definition hough_after_one : hough float :=
  {| frame_count := 0;
     ball_center := [(8, 8); (0, 0)]%float;
     ball_radius := [26; 0]%float;
     ball_center_vel := [(0, 0); (0, 0)]%float |}.

(** ** Construction, the frame list and the main loop *)

Section Construction.
Context {F : Type} `{Num F}.
Local Open Scope num_scope.



(** [np.diff(a)] *)
Fixpoint diff_from (previous : F) (a : list F) : list F :=
  match a with
  | [] => []
  | x :: rest => (x - previous) :: diff_from x rest
  end.

Definition np_diff (a : list F) : list F :=
  match a with
  | [] => []
  | x :: rest => diff_from x rest
  end.

(** [imageSamples.read_timestamps], from the list [self.timestamps] of the
    parsed ['pkt_pts_time'] values: [np.insert(np.diff(timestamps), 0, 0.0)] *)
Definition read_timestamps (timestamps : list F) : list F :=
  fzero :: np_diff timestamps.

(** Python's [not x] on a float: true on [0.0] and [-0.0] only. *)
Definition is_zero (x : F) : bool := (x <=? fzero) && (fzero <=? x).

(** [imageSamples.__init__], from the sorted frame list: [self.image_dt_list].
    A [frame_period] that is [None] or zero makes the constructor read the
    time stamps. *)
Definition image_dt_list {A : Type} (framelist : list A)
    (frame_period : option F) (timestamps : list F) : list (A * F) :=
  let dt :=
    match frame_period with
    | None => read_timestamps timestamps
    | Some period =>
        if is_zero period then read_timestamps timestamps
        else repeat period (length framelist)
    end in
  combine framelist dt.

End Construction.

(** [main]: the frames that the loop processes,
    [image_dt_list[start_image + 1:]] when [end_image] is negative and
    [image_dt_list[start_image + 1:end_image + 1]] otherwise. *)
Definition considered_list {A : Type} (start_image end_image : Z)
    (image_dt_list : list A) : list A :=
  if (end_image <? 0)%Z
  then py_slice (start_image + 1) (Z.of_nat (length image_dt_list))
                image_dt_list
  else py_slice (start_image + 1) (end_image + 1) image_dt_list.

(** [main]: the frame [image_dt_list[start_image]] that the tracker is
    constructed on. *)
Definition first_image {A : Type} (start_image : Z) (image_dt_list : list A)
  : result A :=
  np_get image_dt_list start_image.

Section HoughRun.
Context {F : Type} `{Num F}.

(** [motionTracker.__init__] with [particle_filter=False]: the arrays of the
    Hough tracker for [frames_to_process] frames. *)
Definition hough_init (frames_to_process : nat) : hough F :=
  {| frame_count := -1;
     ball_center := repeat (fzero, fzero) frames_to_process;
     ball_radius := repeat fzero frames_to_process;
     ball_center_vel := repeat (fzero, fzero) frames_to_process |}.

(** The loop of [main] with [--method hough]: one call per frame, with the
    circles found in the frame and its [dt]; an exception ends the run. *)
Fixpoint run_hough (target_radius : Z)
    (frames : list (option (list (F * F * F)) * F)) (t : hough F)
  : result (hough F) :=
  match frames with
  | [] => Ok t
  | (circles, dt) :: rest =>
      t' <- track_ball_hough circles target_radius dt t ;;
      run_hough target_radius rest t'
  end.

End HoughRun.


(** The sum of a list of counts. *)
Definition Zsum (l : list Z) : Z := fold_right Z.add 0%Z l.

(** ** Frame names

    A Python [str] is a list of characters. *)

Definition is_digit (c : ascii) : bool :=
  let n := nat_of_ascii c in ((48 <=? n) && (n <=? 57))%nat.

(** The longest prefix of digits, and what follows it. *)
Fixpoint take_digits (s : list ascii) : list ascii * list ascii :=
  match s with
  | [] => ([], [])
  | c :: rest =>
      if is_digit c
      then let '(ds, after) := take_digits rest in (c :: ds, after)
      else ([], s)
  end.

Fixpoint starts_with (p s : list ascii) : bool :=
  match p, s with
  | [], _ => true
  | a :: p', b :: s' => Ascii.eqb a b && starts_with p' s'
  | _ :: _, [] => false
  end.

Definition dot_png : list ascii := ["."; "p"; "n"; "g"]%char.

(** [re.search('([0-9]+)\.png', name)]: group 1 of the leftmost match.  A
    match at a position takes all the digits that start there and needs
    [.png] right after them. *)
Fixpoint search_number (name : list ascii) : option (list ascii) :=
  match name with
  | [] => None
  | _ :: rest =>
      match take_digits name with
      | (d :: ds, after) =>
          if starts_with dot_png after then Some (d :: ds)
          else search_number rest
      | ([], _) => search_number rest
      end
  end.

(** [int(digits)] *)
Definition int_of_digits (ds : list ascii) : Z :=
  fold_left (fun acc c => (10 * acc + Z.of_nat (nat_of_ascii c - 48))%Z) ds 0%Z.

(** [imageSamples.extract_number] *)
Definition extract_number (name : list ascii) : Z :=
  match search_number name with
  | Some ds => int_of_digits ds
  | None => (-1)%Z
  end.

(** ** More sample inputs *)


(** Two frames for the Hough tracker: one circle, then none. *)
Definition hough_frames : list (option (list (float * float * float)) * float) :=
  [(Some [(10, 10, 26)], 0.5); (None, 0.5)]%float.

(** [frame0012.png] *)
Definition sample_name_stem : list ascii :=
  ["f"; "r"; "a"; "m"; "e"]%char.

Definition sample_name_digits : list ascii := ["0"; "0"; "1"; "2"]%char.

(** * Properties *)

(** ** Runs of the model on binary64 *)

Example py_slice_past_the_end :
  py_slice 1 5 [10; 20; 30]%Z = [20; 30]%Z.
Proof. reflexivity. Qed.

Example py_slice_negative_start :
  py_slice (-1) 2 [10; 20; 30]%Z = [].
Proof. reflexivity. Qed.

Example np_histogram_four_bins :
  np_histogram 4 [0; 63; 64; 128; 255; 300]%Z = [2; 1; 1; 1]%Z.
Proof. reflexivity. Qed.

Example int_truncates_toward_zero :
  float_to_int (-3.5) = Some (-3)%Z /\ float_to_int 3.5 = Some 3%Z /\
  float_to_int (-0.5) = Some 0%Z /\ float_to_int nan = None.
Proof. repeat split. Qed.

Example sample_target_hist :
  get_target_hist 4 (@sample_roi float _) = [4; 0; 0; 0]%float.
Proof. reflexivity. Qed.

Example hellinger_of_equal_histograms :
  hellinger [1; 2; 3]%float [2; 4; 6]%float = 0%float.
Proof. reflexivity. Qed.

Example hellinger_of_disjoint_histograms :
  hellinger [1; 0; 0]%float [0; 2; 3]%float = 1%float.
Proof. reflexivity. Qed.

Example propagate_one_particle :
  propagate_columns (transition_matrix 0.5%float)
                    (compute_process_noise_variance 25 20)%float
                    [[1; 1; 2; 4]]%float [[1; 0; 0; 1]]%float
  = [[27; 3; 2; 24]]%float.
Proof. reflexivity. Qed.

Example resample_sample_tracker :
  option_map (@current_state float)
             (resample_particles (fun _ => 0.5%float) sample_tracker)
  = Some [[9; 9; 0; 0]; [9; 9; 0; 0]]%float.
Proof. reflexivity. Qed.

Example estimate_of_sample_tracker :
  mmse_estimate (compute_MMSE_estimate (@sample_tracker float _))
    = [5; 5; 0; 0]%float /\
  mmse_estimate_box (compute_MMSE_estimate (@sample_tracker float _))
    = [4; 4; 6; 6]%float.
Proof. split; reflexivity. Qed.

Example hough_second_frame :
  track_ball_hough (Some [(10, 10, 26)]%float) 26 0.5%float hough_after_one
  = Ok {| frame_count := 1;
          ball_center := [(8, 8); (10, 10)]%float;
          ball_radius := [26; 26]%float;
          ball_center_vel :=
            [(0, 0); (0x1.3b13b13b13b14p-2, 0x1.3b13b13b13b14p-2)]%float |}.
Proof. reflexivity. Qed.

(** ** Loops and arrays *)

Section Generic.
Context {F : Type} `{Num F}.

Lemma traverse_length {A B : Type} (f : A -> option B) (l : list A) ys :
  traverse f l = Some ys -> length ys = length l.
Proof.
  revert ys; induction l as [|x l IH]; intros ys; simpl.
  - intros [= <-]; reflexivity.
  - destruct (f x); [|discriminate].
    destruct (traverse f l); [|discriminate].
    intros [= <-]; simpl; f_equal; auto.
Qed.

Lemma traverse_nth_error {A B : Type} (f : A -> option B) (l : list A) ys :
  traverse f l = Some ys ->
  forall i x, nth_error l i = Some x -> nth_error ys i = f x.
Proof.
  revert ys; induction l as [|a l IH]; intros ys; simpl.
  - intros _ [|i] x; discriminate.
  - destruct (f a) eqn:Ha; [|discriminate].
    destruct (traverse f l); [|discriminate].
    intros [= <-] [|i] x; simpl.
    + intros [= <-]; auto.
    + apply IH; reflexivity.
Qed.

Lemma traverse_total {A B : Type} (f : A -> option B) (l : list A) :
  (forall x, In x l -> f x <> None) -> exists ys, traverse f l = Some ys.
Proof.
  induction l as [|a l IH]; simpl; intros Hf.
  - eexists; reflexivity.
  - destruct (f a) eqn:Ha; [|exfalso; apply (Hf a); auto].
    destruct IH as [ys ->]; [intros x Hx; apply Hf; auto|].
    eexists; reflexivity.
Qed.

Lemma cumsum_from_length acc (a : list F) :
  length (cumsum_from acc a) = length a.
Proof. revert acc; induction a; simpl; intros; f_equal; auto. Qed.

Lemma np_cumsum_length (a : list F) : length (np_cumsum a) = length a.
Proof. destruct a; simpl; [reflexivity|]. f_equal; apply cumsum_from_length. Qed.

Lemma cumsum_from_nth acc (a : list F) k :
  k < length a ->
  nth k (cumsum_from acc a) fzero = fold_left fadd (firstn (S k) a) acc.
Proof.
  revert acc k; induction a as [|x a IH]; simpl; intros acc k Hk; [lia|].
  destruct k as [|k]; [destruct a; reflexivity|].
  apply IH; lia.
Qed.

Lemma np_cumsum_nth (a : list F) k :
  k < length a -> nth k (np_cumsum a) fzero = np_sum (firstn (S k) a).
Proof.
  destruct a as [|x a]; simpl; intros Hk; [lia|].
  destruct k as [|k]; [reflexivity|].
  apply cumsum_from_nth; lia.
Qed.

Lemma nonzero_from_spec i u (cs : list F) :
  match nonzero_from i u cs with
  | [] => forall k, k < length cs -> fleb u (nth k cs fzero) = false
  | j :: _ =>
      i <= j /\ j - i < length cs /\ fleb u (nth (j - i) cs fzero) = true /\
      forall k, k < j - i -> fleb u (nth k cs fzero) = false
  end.
Proof.
  revert i; induction cs as [|c cs IH]; intros i; simpl.
  - intros k Hk; lia.
  - destruct (fleb u c) eqn:Hc.
    + replace (i - i) with 0 by lia. repeat split; try lia; auto.
    + specialize (IH (S i)).
      destruct (nonzero_from (S i) u cs) as [|j rest].
      * intros [|k] Hk; auto. apply IH; lia.
      * destruct IH as (Hij & Hlen & Hj & Hmin).
        replace (j - i) with (S (j - S i)) by lia.
        repeat split; try lia; auto.
        intros [|k] Hk; auto. apply Hmin; lia.
Qed.

Lemma select_index_spec u (cs : list F) :
  let j := select_index u cs in
  (j < length cs /\ fleb u (nth j cs fzero) = true /\
   forall k, k < j -> fleb u (nth k cs fzero) = false)
  \/ (j = 0 /\ forall k, k < length cs -> fleb u (nth k cs fzero) = false).
Proof.
  unfold select_index.
  pose proof (nonzero_from_spec 0 u cs) as Hs.
  destruct (nonzero_from 0 u cs) as [|j rest]; simpl.
  - right; auto.
  - left. replace (j - 0) with j in Hs by lia. tauto.
Qed.

Lemma select_index_lt u (cs : list F) n :
  length cs = n -> 0 < n -> select_index u cs < n.
Proof.
  intros Hlen Hn.
  destruct (select_index_spec u cs) as [(Hj & _) | (Hj & _)]; lia.
Qed.

(** C3.  [resample_particles] takes the cumulative sums of the weights
    and fills every one of the [N] slots: slot [i] receives the whole
    column of the state before resampling at the index [j] that the draw
    [uniform i] selects, where [j] is the least index whose cumulative
    weight is at least the draw, and [0] when there is none.  The
    resampled state has [N] columns again. *)
Theorem resample_particles_selects_ancestors
    (uniform : nat -> F) (t : tracker F) :
  length (particle_betas t) = length (current_state t) ->
  exists t',
    resample_particles uniform t = Some t' /\
    length (current_state t') = length (current_state t) /\
    let beta_cumsum := np_cumsum (particle_betas t) in
    (forall k, k < length (particle_betas t) ->
       nth k beta_cumsum fzero = np_sum (firstn (S k) (particle_betas t))) /\
    forall i, i < length (current_state t) ->
      let j := select_index (uniform i) beta_cumsum in
      nth_error (current_state t') i = nth_error (current_state t) j /\
      j < length (current_state t) /\
      ((fleb (uniform i) (nth j beta_cumsum fzero) = true /\
        forall k, k < j -> fleb (uniform i) (nth k beta_cumsum fzero) = false)
       \/ (j = 0 /\
           forall k, k < length beta_cumsum ->
             fleb (uniform i) (nth k beta_cumsum fzero) = false)).
Proof.
  intros Hlen.
  assert (Hsel : forall i, i < length (current_state t) ->
            select_index (uniform i) (np_cumsum (particle_betas t))
            < length (current_state t)).
  { intros i Hi. apply select_index_lt; [|lia].
    rewrite np_cumsum_length; exact Hlen. }
  destruct (traverse_total
              (fun i => nth_error (current_state t)
                 (select_index (uniform i) (np_cumsum (particle_betas t))))
              (seq 0 (length (current_state t)))) as [resampled Hres].
  { intros i Hi. apply in_seq in Hi. apply nth_error_Some. apply Hsel; lia. }
  unfold resample_particles, resample_columns. rewrite Hres.
  eexists; split; [reflexivity|]. simpl.
  split; [rewrite (traverse_length _ _ Hres); apply length_seq|].
  split; [intros k Hk; apply np_cumsum_nth; exact Hk|].
  intros i Hi.
  split.
  { rewrite (traverse_nth_error _ _ Hres i (x:=i)); [reflexivity|].
    rewrite nth_error_nth' with (d:=0); rewrite ?length_seq; auto.
    rewrite seq_nth; auto. }
  split; [apply Hsel; exact Hi|].
  destruct (select_index_spec (uniform i) (np_cumsum (particle_betas t)))
    as [(_ & Hle & Hmin) | (H0 & Hnone)]; [left | right]; auto.
Qed.
End Generic.

(** ** Propagation, cropping and the density stage, at every arithmetic *)

Section Stages.
Context {F : Type} `{Num F}.

Lemma propagate_columns_combine (A V state normal : list (list F)) :
  propagate_columns A V state normal =
  map (fun sz => np_add (matvec A (fst sz)) (matvec V (snd sz)))
      (combine state normal).
Proof.
  revert normal; induction state as [|s state IH]; intros [|z normal];
    simpl; try reflexivity.
  f_equal; apply IH.
Qed.

Lemma transition_matrix_entries (dt : F) :
  transition_matrix dt =
  [[fone; fzero; dt; fzero]; [fzero; fone; fzero; dt];
   [fzero; fzero; fone; fzero]; [fzero; fzero; fzero; fone]].
Proof. reflexivity. Qed.

Lemma process_noise_entries (p v : F) :
  compute_process_noise_variance p v =
  [[p; fzero; fzero; fzero]; [fzero; p; fzero; fzero];
   [fzero; fzero; v; fzero]; [fzero; fzero; fzero; v]].
Proof. reflexivity. Qed.

Lemma np_histogram_empty (n : nat) : np_histogram n [] = repeat 0%Z n.
Proof.
  unfold np_histogram. cbn [filter length Z.of_nat].
  generalize 0%nat. induction n as [|n IH]; intros s; simpl; [reflexivity|].
  f_equal. apply IH.
Qed.


Lemma density_values_some (norm_pdf : F -> F -> F -> F) (sigma : Z)
    (h_measured : list (list F)) (h_target : list F) :
  sigma <> 0%Z ->
  density_values norm_pdf sigma h_measured h_target =
  Some (map (fun d => norm_pdf d fzero (fdiv (of_int 1) (of_int sigma)))
            (compute_hellinger_distance h_measured h_target)).
Proof.
  intros Hs. unfold density_values.
  destruct (Z.eqb_spec sigma 0); [contradiction|reflexivity].
Qed.


End Stages.

(** ** Exact arithmetic *)

Section Exact.
Local Open Scope R_scope.

Lemma fold_left_Rplus (l : list R) (x : R) :
  fold_left Rplus l x = x + total l.
Proof.
  revert x; induction l as [|a l IH]; intros x; simpl; [ring|].
  rewrite IH; ring.
Qed.

Lemma np_sum_exact (l : list R) : np_sum l = total l.
Proof.
  destruct l as [|x l]; simpl; [reflexivity|]. apply fold_left_Rplus.
Qed.


















Lemma propagate_one_exact (dt p v x y vx vy z0 z1 z2 z3 : R) :
  np_add (matvec (transition_matrix dt) [x; y; vx; vy])
         (matvec (compute_process_noise_variance p v) [z0; z1; z2; z3]) =
  [x + dt * vx + p * z0; y + dt * vy + p * z1; vx + v * z2; vy + v * z3].
Proof.
  rewrite transition_matrix_entries, process_noise_entries.
  cbn. repeat (f_equal; try ring).
Qed.

(** C7.  [propagate_particles] builds the 4x4 identity with [dt] at
    [(0, 2)] and [(1, 3)], the noise scale is the diagonal matrix of the
    position sigma twice and the velocity sigma twice, and every particle
    [i] becomes [A s_i + V z_i] for its own column [z_i] of the draws; over
    the reals that is
    [(x + dt vx + p z0, y + dt vy + p z1, vx + v z2, vy + v z3)], with no
    clamping. *)
Theorem propagate_particles_constant_velocity :
  (forall (F : Type) (NF : Num F) (dt p v : F) (normal : list (list F))
          (t : tracker F),
     transition_matrix dt =
       [[fone; fzero; dt; fzero]; [fzero; fone; fzero; dt];
        [fzero; fzero; fone; fzero]; [fzero; fzero; fzero; fone]] /\
     compute_process_noise_variance p v =
       [[p; fzero; fzero; fzero]; [fzero; p; fzero; fzero];
        [fzero; fzero; v; fzero]; [fzero; fzero; fzero; v]] /\
     current_state (propagate_particles dt normal t) =
       map (fun sz => np_add (matvec (transition_matrix dt) (fst sz))
                             (matvec (V_process_noise t) (snd sz)))
           (combine (current_state t) normal)) /\
  (forall (dt p v : R) (state normal : list (R * R * R * R)),
     propagate_columns (transition_matrix dt)
                       (compute_process_noise_variance p v)
                       (map col4 state) (map col4 normal) =
     map (fun sz =>
            let '(x, y, vx, vy) := fst sz in
            let '(z0, z1, z2, z3) := snd sz in
            [x + dt * vx + p * z0; y + dt * vy + p * z1;
             vx + v * z2; vy + v * z3])
         (combine state normal)).
Proof.
  split.
  - intros F NF dt p v normal t. repeat split.
    apply propagate_columns_combine.
  - intros dt p v state.
    induction state as [|[[[x y] vx] vy] state IH];
      intros [|[[[z0 z1] z2] z3] normal]; try reflexivity.
    cbn [map combine propagate_columns col4 fst snd].
    rewrite propagate_one_exact, <- IH. reflexivity.
Qed.





End Exact.

(** ** The weights over the reals *)

Section Weights.
Local Open Scope R_scope.




End Weights.

(** ** Binary64: division by zero and NaN *)

Section Binary64.
Local Open Scope float_scope.


Lemma div_nan_r (x : float) : x / nan = nan.
Proof.
  apply Prim2SF_inj. rewrite div_spec.
  change (Prim2SF nan) with S754_nan. destruct (Prim2SF x); reflexivity.
Qed.

Lemma add_nan_l (x : float) : nan + x = nan.
Proof.
  apply Prim2SF_inj. rewrite add_spec.
  change (Prim2SF nan) with S754_nan. reflexivity.
Qed.

Lemma add_nan_r (x : float) : x + nan = nan.
Proof.
  apply Prim2SF_inj. rewrite add_spec.
  change (Prim2SF nan) with S754_nan. destruct (Prim2SF x); reflexivity.
Qed.

Lemma fold_left_add_nan (l : list float) : fold_left PrimFloat.add l nan = nan.
Proof. induction l as [|x l IH]; simpl; [|rewrite add_nan_l]; auto. Qed.

Lemma np_sum_zeros (n : nat) : np_sum (repeat 0 n) = 0.
Proof.
  destruct n as [|n]; [reflexivity|]. simpl.
  induction n as [|n IH]; [reflexivity|]. simpl. exact IH.
Qed.

Lemma normalize_zeros (n : nat) : normalize (repeat 0 n) = repeat nan n.
Proof.
  unfold normalize. rewrite np_sum_zeros.
  induction n as [|n IH]; [reflexivity|].
  change (repeat 0 (S n)) with (0 :: repeat 0 n).
  change (repeat nan (S n)) with (nan :: repeat nan n).
  cbn [map]. f_equal. exact IH.
Qed.


Lemma np_sum_with_nan (a b : list float) : np_sum (a ++ nan :: b) = nan.
Proof.
  destruct a as [|x a]; simpl; [apply fold_left_add_nan|].
  rewrite fold_left_app. simpl. rewrite add_nan_r. apply fold_left_add_nan.
Qed.

Lemma divide_by_nan (l : list float) :
  map (fun v => v / nan) l = repeat nan (length l).
Proof.
  induction l as [|x l IH]; simpl; [reflexivity|].
  rewrite div_nan_r, IH. reflexivity.
Qed.



(** C1, amended.  [compute_particle_betas] divides every density by the sum
    of the densities, whatever that sum is.  There is no other branch: when
    every density is zero, and when a density is NaN, every weight is
    NaN. *)
Theorem compute_betas_divides_by_any_sum
    (norm_pdf : float -> float -> float -> float) (sigma : Z)
    (h_measured : list (list float)) (h_target : list float) :
  compute_betas norm_pdf sigma h_measured h_target =
    option_map (fun dens => map (fun v => v / np_sum dens) dens)
               (density_values norm_pdf sigma h_measured h_target) /\
  (forall n : nat, normalize (repeat 0 (S n)) = repeat nan (S n)) /\
  (forall a b : list float,
     normalize (a ++ nan :: b) = repeat nan (length (a ++ nan :: b))).
Proof.
  split; [reflexivity|]. split.
  - intros n. apply normalize_zeros.
  - intros a b. unfold normalize. rewrite np_sum_with_nan.
    apply divide_by_nan.
Qed.


End Binary64.

(** ** The loop of the Hough tracker *)

Section HoughLoop.
Context {F : Type} `{Num F}.

Lemma list_set_length (A : Type) (l : list A) (i : nat) (v : A) :
  length (list_set l i v) = length l.
Proof.
  revert i; induction l as [|x l IH]; intros [|i]; simpl; auto.
Qed.

Lemma list_set_twice (A : Type) (l : list A) (i : nat) (v w : A) :
  list_set (list_set l i v) i w = list_set l i w.
Proof.
  revert i; induction l as [|x l IH]; intros [|i]; simpl; auto.
  rewrite IH; reflexivity.
Qed.

Lemma np_put_in_range (A : Type) (a : list A) (i : Z) (v : A) :
  (0 <= i < Z.of_nat (length a))%Z ->
  np_put a i v = Ok (list_set a (Z.to_nat i) v).
Proof.
  intros Hi. unfold np_put, np_index.
  destruct (Z.ltb_spec i 0); [lia|].
  destruct (Z.leb_spec 0 i); [|lia].
  destruct (Z.ltb_spec i (Z.of_nat (length a))); [|lia].
  reflexivity.
Qed.

Lemma list_set_nth_error (A : Type) (l : list A) (i : nat) (v : A) :
  (i < length l)%nat -> nth_error (list_set l i v) i = Some v.
Proof.
  revert i; induction l as [|x l IH]; intros [|i]; simpl; intros Hi;
    try lia; [reflexivity|].
  apply IH; lia.
Qed.

Lemma np_get_in_range (A : Type) (a : list A) (i : Z) (v : A) :
  (0 <= i)%Z -> nth_error a (Z.to_nat i) = Some v -> np_get a i = Ok v.
Proof.
  intros Hi Hv. unfold np_get, np_index.
  assert (Hlen : (Z.to_nat i < length a)%nat)
    by (apply nth_error_Some; rewrite Hv; discriminate).
  destruct (Z.ltb_spec i 0); [lia|].
  destruct (Z.leb_spec 0 i); [|lia].
  destruct (Z.ltb_spec i (Z.of_nat (length a))); [|lia].
  simpl. rewrite Hv. reflexivity.
Qed.

(** With a negative [min_distance], which the loop never changes, every
    circle passes the test, and the loop ends on the last circle. *)
Lemma select_circle_ends_on_last (target_radius frame : Z)
    (circles : list (F * F * F)) (c : F * F * F) (min_distance : F)
    (new_pos : F * F) (radius : list F) :
  fltb min_distance fzero = true ->
  (0 <= frame < Z.of_nat (length radius))%Z ->
  select_circle target_radius frame (circles ++ [c]) min_distance new_pos
                radius =
  Ok (min_distance, (fst (fst c), snd (fst c)),
      list_set radius (Z.to_nat frame) (snd c)).
Proof.
  intros Hneg. revert new_pos radius.
  induction circles as [|[[cx cy] cr] circles IH]; intros new_pos radius Hf.
  - destruct c as [[cx cy] cr]. simpl. rewrite Hneg. simpl.
    rewrite np_put_in_range by exact Hf. reflexivity.
  - simpl. rewrite Hneg. simpl. rewrite np_put_in_range by exact Hf.
    simpl. rewrite IH by (rewrite list_set_length; exact Hf).
    rewrite list_set_twice. reflexivity.
Qed.

End HoughLoop.

(** ** Runs on binary64 *)

Section Runs.
Local Open Scope float_scope.

(** C1, counterexample: two densities that are both zero sum to zero, and
    the weights are NaN, not 1/2 each. *)
Lemma zero_density_sum_is_not_made_uniform :
  np_sum [0; 0] = 0 /\
  normalize [0; 0] = [nan; nan] /\
  normalize [0; 0] <> repeat (1 / float_of_int 2) 2.
Proof.
  repeat split. intros Heq.
  assert (Hn : is_nan (nth 0 (normalize [0; 0]) 0) = false)
    by (rewrite Heq; reflexivity).
  discriminate Hn.
Qed.




(** C9.  On a first frame the tracker keeps the last of the detected
    circles as the position and radius of the ball, whatever the radii of
    the circles and the target radius are. *)
Theorem track_ball_hough_keeps_last_circle
    (circles : list (float * float * float)) (c : float * float * float)
    (target_radius : Z) (dt : float) (t : hough float) :
  frame_count t = (-1)%Z ->
  (0 < length (ball_center t))%nat -> (0 < length (ball_radius t))%nat ->
  exists t',
    track_ball_hough (Some (circles ++ [c])) target_radius dt t = Ok t' /\
    nth_error (ball_center t') 0 = Some (fst (fst c), snd (fst c)) /\
    nth_error (ball_radius t') 0 = Some (snd c).
Proof.
  intros Hframe Hcenter Hradius. unfold track_ball_hough.
  rewrite Hframe. cbn [Z.add Z.ltb Z.compare Z.pos_sub Z.opp]. cbn [bind].
  rewrite select_circle_ends_on_last by (reflexivity || lia).
  cbn [bind]. rewrite np_put_in_range by lia. cbn [bind].
  eexists. split; [reflexivity|].
  cbn [ball_center ball_radius Z.to_nat].
  split; apply list_set_nth_error; assumption.
Qed.

(** C10.  On a later frame, when the last detected circle has radius zero,
    the tracker raises [TypeError]. *)
Theorem track_ball_hough_zero_radius_raises
    (circles : list (float * float * float)) (cx cy : float)
    (target_radius : Z) (dt : float) (t : hough float) :
  (0 <= frame_count t)%Z ->
  (frame_count t < Z.of_nat (length (ball_center t)))%Z ->
  (frame_count t + 1 < Z.of_nat (length (ball_radius t)))%Z ->
  track_ball_hough (Some (circles ++ [(cx, cy, 0)])) target_radius dt t
  = Raise TypeError.
Proof.
  intros Hframe Hcenter Hradius. unfold track_ball_hough.
  destruct (Z.ltb_spec 0 (frame_count t + 1)) as [_|]; [|lia].
  replace (frame_count t + 1 - 1)%Z with (frame_count t) by lia.
  destruct (nth_error (ball_center t) (Z.to_nat (frame_count t)))
    as [prev|] eqn:Hprev; [|apply nth_error_None in Hprev; lia].
  rewrite (np_get_in_range _ Hframe Hprev). cbn [bind].
  rewrite select_circle_ends_on_last by (reflexivity || lia).
  cbn [bind fst snd].
  rewrite (@np_get_in_range _ _ (frame_count t + 1) 0)
    by (lia || (apply list_set_nth_error; lia)).
  reflexivity.
Qed.

End Runs.

(** ** The theorems at the sample inputs *)

Lemma resample_particles_selects_ancestors_witness :
  length (particle_betas (@sample_tracker float _)) =
    length (current_state (@sample_tracker float _)) /\
  exists t',
    resample_particles (fun _ => 0.5%float) sample_tracker = Some t' /\
    length (current_state t') = 2%nat.
Proof.
  split; [reflexivity|].
  destruct (resample_particles_selects_ancestors
              (fun _ => 0.5%float) sample_tracker eq_refl)
    as (t' & Hrun & Hlen & _).
  exists t'. split; [exact Hrun | exact Hlen].
Defined.





Lemma track_ball_hough_keeps_last_circle_witness :
  frame_count hough_start = (-1)%Z /\
  exists t',
    track_ball_hough (Some [(10, 10, 26); (50, 50, 30)]%float) 26 0.5%float
                     hough_start = Ok t' /\
    nth_error (ball_center t') 0 = Some (50, 50)%float /\
    nth_error (ball_radius t') 0 = Some 30%float.
Proof.
  split; [reflexivity|].
  apply (@track_ball_hough_keeps_last_circle
           [(10, 10, 26)]%float (50, 50, 30)%float 26 0.5%float hough_start);
    [reflexivity | simpl; lia | simpl; lia].
Defined.

Lemma track_ball_hough_zero_radius_raises_witness :
  (0 <= frame_count hough_after_one)%Z /\
  track_ball_hough (Some [(10, 10, 0)]%float) 5 0.5%float hough_after_one
  = Raise TypeError.
Proof.
  split; [simpl; lia|].
  apply (@track_ball_hough_zero_radius_raises
           [] 10%float 10%float 5 0.5%float hough_after_one);
    simpl; lia.
Defined.

(** * Further properties *)

(** ** The update step as a whole *)

Section Pipeline.
Context {F : Type} `{Num F}.

Lemma traverse_none (A B : Type) (f : A -> option B) (l : list A) :
  traverse f l = None <-> exists x, In x l /\ f x = None.
Proof.
  induction l as [|a l IH]; simpl.
  - split; [discriminate | intros (x & [] & _)].
  - destruct (f a) as [y|] eqn:Ha.
    + destruct (traverse f l) as [ys|].
      * split; [discriminate|]. intros (x & [<- | Hx] & Hfx).
        -- congruence.
        -- assert (Hnone : Some ys = None) by (apply IH; eauto).
           discriminate Hnone.
      * split; [|reflexivity]. intros _.
        destruct (proj1 IH eq_refl) as (x & Hx & Hfx). eauto.
    + split; [|reflexivity]. intros _. exists a; auto.
Qed.

Lemma traverse_in (A B : Type) (f : A -> option B) (l : list A) ys y :
  traverse f l = Some ys -> In y ys -> exists x, In x l /\ f x = Some y.
Proof.
  revert ys; induction l as [|a l IH]; intros ys; simpl.
  - intros [= <-] [].
  - destruct (f a) as [b|] eqn:Ha; [|discriminate].
    destruct (traverse f l) as [bs|]; [|discriminate].
    intros [= <-] [<- | Hy]; [eauto|].
    destruct (IH bs eq_refl Hy) as (x & Hx & Hfx). eauto.
Qed.

Lemma resample_columns_some (prior : list (list F)) (betas : list F)
    (uniform : nat -> F) :
  length betas = length prior ->
  exists resampled,
    resample_columns prior betas uniform = Some resampled /\
    length resampled = length prior /\
    forall column, In column resampled -> In column prior.
Proof.
  intros Hlen. unfold resample_columns.
  destruct (traverse_total
              (fun i => nth_error prior
                          (select_index (uniform i) (np_cumsum betas)))
              (seq 0 (length prior))) as [resampled Hres].
  { intros i Hi. apply in_seq in Hi. apply nth_error_Some.
    apply select_index_lt; [|lia]. rewrite np_cumsum_length. exact Hlen. }
  exists resampled. split; [exact Hres|]. split.
  - rewrite (traverse_length _ _ Hres). apply length_seq.
  - intros column Hin.
    destruct (@traverse_in _ _ _ _ _ _ Hres Hin) as (i & _ & Hi).
    eapply nth_error_In; exact Hi.
Qed.

Lemma histograms_of_update (image_grayscale : list (list Z))
    (t t1 : tracker F) :
  update_particles_histograms image_grayscale t = Some t1 ->
  current_state t1 = current_state t /\
  roi t1 = roi t /\ n_bins t1 = n_bins t /\
  measurement_noise_sigma t1 = measurement_noise_sigma t /\
  target_hist_values t1 = target_hist_values t /\
  length (particle_boxes t1) = length (current_state t) /\
  length (particle_histograms t1) = length (current_state t) /\
  Forall (fun h => length h = n_bins t) (particle_histograms t1).
Proof.
  unfold update_particles_histograms.
  destruct (traverse (particle_histogram (roi t) (n_bins t) image_grayscale)
                     (current_state t)) as [bh|] eqn:Hbh; [|discriminate].
  intros [= <-]. cbn.
  rewrite !length_map, (traverse_length _ _ Hbh).
  repeat split; try reflexivity.
  apply Forall_forall. intros h Hh. apply in_map_iff in Hh.
  destruct Hh as ([box h'] & <- & Hin).
  destruct (@traverse_in _ _ _ _ _ _ Hbh Hin) as (s & _ & Hs).
  unfold particle_histogram in Hs.
  destruct (crop image_grayscale _); [|discriminate].
  injection Hs as _ <-. cbn. unfold np_histogram.
  rewrite !length_map. apply length_seq.
Qed.

Lemma update_particles_some
    (norm_pdf : F -> F -> F -> F) (image_grayscale : list (list Z))
    (uniform : nat -> F) (t : tracker F) :
  measurement_noise_sigma t <> 0%Z ->
  (forall s, In s (current_state t) ->
     crop image_grayscale
          (box_around (roi t) (nth 0 s fzero) (nth 1 s fzero)) <> None) ->
  exists t', update_particles norm_pdf image_grayscale uniform t = Some t'.
Proof.
  intros Hsigma Hcrops. unfold update_particles.
  destruct (update_particles_histograms image_grayscale t) as [t1|] eqn:H1.
  - destruct (@histograms_of_update _ _ _ H1)
      as (Hs1 & _ & _ & Hsig1 & _ & _ & Hhist1 & _).
    unfold compute_particle_betas, compute_betas, density_values.
    rewrite Hsig1.
    destruct (Z.eqb_spec (measurement_noise_sigma t) 0); [contradiction|].
    cbn [option_map]. unfold resample_particles.
    cbn [current_state particle_betas].
    destruct (@resample_columns_some (current_state t1)
                (normalize (map (fun d => norm_pdf d fzero
                                   (fdiv (of_int 1)
                                      (of_int (measurement_noise_sigma t))))
                                (compute_hellinger_distance
                                   (particle_histograms t1)
                                   (target_hist_values t1))))
                uniform) as (r & Hr & _).
    { unfold normalize, compute_hellinger_distance. rewrite !length_map.
      rewrite Hhist1, Hs1. reflexivity. }
    rewrite Hr. eexists; reflexivity.
  - unfold update_particles_histograms in H1.
    destruct (traverse _ (current_state t)) as [bh|] eqn:Hbh; [discriminate|].
    apply traverse_none in Hbh. destruct Hbh as (s & Hin & Hs).
    exfalso. apply (Hcrops s Hin).
    unfold particle_histogram in Hs.
    destruct (crop image_grayscale _); [discriminate | reflexivity].
Qed.

(** X1.  For a tracker with [n_bins > 0] whose target histogram has
    [n_bins] entries, a successful [update_particles] keeps the number of
    particles in the state, the boxes, the histograms and the weights;
    every histogram has [n_bins] entries; every particle of the new state
    is a particle of the old one; and the target and the settings are
    untouched. *)
Theorem update_particles_keeps_population
    (norm_pdf : F -> F -> F -> F) (image_grayscale : list (list Z))
    (uniform : nat -> F) (t t' : tracker F) :
  0 < n_bins t -> length (target_hist_values t) = n_bins t ->
  update_particles norm_pdf image_grayscale uniform t = Some t' ->
  let N := length (current_state t) in
  length (current_state t') = N /\
  length (particle_boxes t') = N /\
  length (particle_histograms t') = N /\
  length (particle_betas t') = N /\
  Forall (fun h => length h = n_bins t) (particle_histograms t') /\
  (forall s, In s (current_state t') -> In s (current_state t)) /\
  roi t' = roi t /\ n_bins t' = n_bins t /\
  target_hist_values t' = target_hist_values t.
Proof.
  intros _ _. unfold update_particles.
  destruct (update_particles_histograms image_grayscale t) as [t1|] eqn:H1;
    [|discriminate].
  destruct (@histograms_of_update _ _ _ H1)
    as (Hs1 & Hroi1 & Hbin1 & Hsig1 & Htar1 & Hbox1 & Hhist1 & Hall1).
  unfold compute_particle_betas, compute_betas, density_values.
  destruct (measurement_noise_sigma t1 =? 0)%Z; [discriminate|].
  cbn [option_map].
  unfold resample_particles. cbn [current_state particle_betas].
  destruct (resample_columns _ _ uniform) as [resampled|] eqn:Hres;
    [|discriminate].
  intros [= <-]. cbn.
  destruct (@resample_columns_some (current_state t1)
              (normalize (map (fun d => norm_pdf d fzero
                                 (fdiv (of_int 1)
                                       (of_int (measurement_noise_sigma t1))))
                              (compute_hellinger_distance
                                 (particle_histograms t1)
                                 (target_hist_values t1))))
              uniform) as (r & Hr & Hlen & Hin).
  { unfold normalize, compute_hellinger_distance. rewrite !length_map.
    rewrite Hhist1, Hs1. reflexivity. }
  rewrite Hr in Hres. injection Hres as <-.
  rewrite Hs1 in Hlen, Hin.
  unfold normalize, compute_hellinger_distance. rewrite !length_map.
  repeat split; auto.
Qed.

(** X2.  For a tracker with [n_bins > 0] whose target histogram has
    [n_bins] entries, [update_particles] raises exactly when
    [measurement_noise_sigma] is zero or when [int()] fails on a coordinate
    of the box of some particle. *)
Theorem update_particles_raises_iff
    (norm_pdf : F -> F -> F -> F) (image_grayscale : list (list Z))
    (uniform : nat -> F) (t : tracker F) :
  0 < n_bins t -> length (target_hist_values t) = n_bins t ->
  update_particles norm_pdf image_grayscale uniform t = None <->
  measurement_noise_sigma t = 0%Z \/
  exists s, In s (current_state t) /\
            crop image_grayscale
                 (box_around (roi t) (nth 0 s fzero) (nth 1 s fzero)) = None.
Proof.
  intros _ _. unfold update_particles.
  destruct (update_particles_histograms image_grayscale t) as [t1|] eqn:H1.
  - destruct (@histograms_of_update _ _ _ H1)
      as (Hs1 & _ & _ & Hsig1 & _ & _ & Hhist1 & _).
    assert (Hcrops : ~ exists s, In s (current_state t) /\
               crop image_grayscale
                 (box_around (roi t) (nth 0 s fzero) (nth 1 s fzero)) = None).
    { intros (s & Hin & Hcrop).
      unfold update_particles_histograms in H1.
      destruct (traverse _ (current_state t)) as [bh|] eqn:Hbh;
        [|discriminate].
      assert (Hnone : traverse (particle_histogram (roi t) (n_bins t)
                                  image_grayscale) (current_state t) = None).
      { apply traverse_none. exists s. split; [exact Hin|].
        unfold particle_histogram. rewrite Hcrop. reflexivity. }
      congruence. }
    unfold compute_particle_betas, compute_betas, density_values.
    rewrite Hsig1.
    destruct (Z.eqb_spec (measurement_noise_sigma t) 0) as [Hz|Hnz].
    + cbn. split; auto.
    + cbn [option_map]. unfold resample_particles.
      cbn [current_state particle_betas].
      destruct (@resample_columns_some (current_state t1)
                  (normalize (map (fun d => norm_pdf d fzero
                                     (fdiv (of_int 1)
                                        (of_int (measurement_noise_sigma t))))
                                  (compute_hellinger_distance
                                     (particle_histograms t1)
                                     (target_hist_values t1))))
                  uniform) as (r & Hr & _).
      { unfold normalize, compute_hellinger_distance. rewrite !length_map.
        rewrite Hhist1, Hs1. reflexivity. }
      rewrite Hr. split; [discriminate|]. intros [Hz | Hc]; contradiction.
  - split; [|reflexivity]. intros _. right.
    unfold update_particles_histograms in H1.
    destruct (traverse _ (current_state t)) as [bh|] eqn:Hbh; [discriminate|].
    apply traverse_none in Hbh. destruct Hbh as (s & Hin & Hs).
    exists s. split; [exact Hin|].
    unfold particle_histogram in Hs.
    destruct (crop image_grayscale _); [discriminate | reflexivity].
Qed.

End Pipeline.

(** ** Resampling and the estimate in the degenerate cases *)

Section Degenerate.
Local Open Scope R_scope.







Lemma traverse_constant (A B : Type) (f : A -> option B) (l : list A) (b : B) :
  (forall x, In x l -> f x = Some b) ->
  traverse f l = Some (repeat b (length l)).
Proof.
  induction l as [|a l IH]; intros Hf; [reflexivity|]. simpl.
  rewrite (Hf a) by (left; reflexivity).
  rewrite IH by (intros x Hx; apply Hf; right; exact Hx). reflexivity.
Qed.



End Degenerate.

Section DegenerateBinary64.
Local Open Scope float_scope.

Lemma leb_nan_r (x : float) : (x <=? nan) = false.
Proof.
  rewrite leb_spec. change (Prim2SF nan) with S754_nan.
  destruct (Prim2SF x) as [| | |? ? ?]; try reflexivity; destruct s;
    reflexivity.
Qed.

Lemma cumsum_from_nan (a : list float) :
  cumsum_from nan a = repeat nan (length a).
Proof.
  induction a as [|x a IH]; [reflexivity|]. simpl.
  rewrite add_nan_l, IH. reflexivity.
Qed.

Lemma nonzero_from_nans (i n : nat) (u : float) :
  nonzero_from i u (repeat nan n) = [].
Proof.
  revert i; induction n as [|n IH]; intros i; [reflexivity|]. simpl.
  rewrite leb_nan_r. apply IH.
Qed.

(** X4.  When the first weight is NaN, as after a division by a zero or
    NaN sum, every cumulative weight is NaN, no draw compares below any of
    them, and [resample_particles] makes every particle a copy of particle
    0. *)
Theorem resampling_nan_weights_keeps_first
    (uniform : nat -> float) (first : list float) (others : list (list float))
    (betas : list float) :
  resample_columns (first :: others) (nan :: betas) uniform
  = Some (repeat first (S (length others))).
Proof.
  unfold resample_columns.
  rewrite (@traverse_constant _ _ _ _ first).
  - rewrite length_seq. reflexivity.
  - intros i _. unfold select_index. cbn [np_cumsum].
    rewrite cumsum_from_nan.
    change (nan :: repeat nan (length betas))
      with (repeat nan (S (length betas))).
    rewrite nonzero_from_nans. reflexivity.
Qed.

End DegenerateBinary64.

(** ** The estimate, the distance and the motion model over the reals *)

Section ExactMore.
Local Open Scope R_scope.



Lemma total_scale (c : R) (l : list R) : total (map (Rmult c) l) = c * total l.
Proof. induction l as [|x l IH]; simpl; [|rewrite IH]; ring. Qed.

Lemma normalize_scale (c : R) (h : list R) :
  c <> 0 -> np_sum h <> 0 -> normalize (map (Rmult c) h) = normalize h.
Proof.
  intros Hc Hs. unfold normalize.
  rewrite !np_sum_exact, total_scale, map_map. rewrite np_sum_exact in Hs.
  apply map_ext. intros v. cbn [fdiv exact]. field. split; assumption.
Qed.

(** X6.  For measured histograms of the length of the target histogram,
    the distance depends on the histograms only through their
    normalizations: multiplying a measured histogram of non-zero sum, or
    the target histogram, by a non-zero factor changes no distance. *)
Theorem hellinger_scale_invariant
    (c : R) (h_measured : list (list R)) (h_target : list R) :
  Forall (fun h => length h = length h_target) h_measured ->
  c <> 0 -> Forall (fun h => np_sum h <> 0) h_measured ->
  np_sum h_target <> 0 ->
  compute_hellinger_distance (map (map (Rmult c)) h_measured) h_target
    = compute_hellinger_distance h_measured h_target /\
  compute_hellinger_distance h_measured (map (Rmult c) h_target)
    = compute_hellinger_distance h_measured h_target.
Proof.
  intros _ Hc Hall Ht. unfold compute_hellinger_distance. split.
  - rewrite map_map. apply map_ext_in. intros h Hh.
    rewrite Forall_forall in Hall. unfold hellinger.
    rewrite normalize_scale by auto. reflexivity.
  - apply map_ext. intros h. unfold hellinger.
    rewrite normalize_scale by auto. reflexivity.
Qed.




End ExactMore.

(** ** Histograms count pixels *)

Section Counting.

Lemma Zsum_indicator (j s n : nat) :
  Zsum (map (fun k => if Nat.eqb j k then 1%Z else 0%Z) (seq s n))
  = if ((s <=? j) && (j <? s + n))%nat then 1%Z else 0%Z.
Proof.
  revert s; induction n as [|n IH]; intros s.
  - simpl. destruct (s <=? j)%nat eqn:E1; [|reflexivity].
    destruct (Nat.ltb_spec j (s + 0)); [|reflexivity].
    apply Nat.leb_le in E1. lia.
  - cbn [seq map Zsum fold_right]. fold (Zsum (map (fun k => if Nat.eqb j k then 1%Z else 0%Z) (seq (S s) n))).
    rewrite IH.
    destruct (Nat.eqb_spec j s) as [->|Hne].
    + rewrite Nat.leb_refl.
      destruct (Nat.leb_spec (S s) s); [lia|].
      destruct (Nat.ltb_spec s (s + S n)); [|lia]. reflexivity.
    + destruct (Nat.leb_spec (S s) j), (Nat.leb_spec s j); try lia;
        destruct (Nat.ltb_spec j (S s + n)), (Nat.ltb_spec j (s + S n));
        try lia; reflexivity.
Qed.

Lemma bin_of_in_range (n : nat) (v : Z) :
  (0 < n)%nat -> (0 <= v <= 255)%Z ->
  exists j, bin_of n v = Some j /\ (j < n)%nat.
Proof.
  intros Hn Hv. unfold bin_of.
  destruct (Z.leb_spec 0 v); [|lia].
  destruct (Z.leb_spec v 256); [|lia]. cbn [andb].
  destruct (Z.eqb_spec v 256); [lia|].
  eexists. split; [reflexivity|].
  apply Nat2Z.inj_lt. rewrite Z2Nat.id.
  - apply Z.div_lt_upper_bound; [lia|]. nia.
  - apply Z.div_pos; [nia | lia].
Qed.

Lemma np_histogram_cons (n : nat) (v : Z) (a : list Z) :
  np_histogram n (v :: a)
  = map (fun k => ((if in_bin n k v then 1 else 0)
                   + Z.of_nat (length (filter (in_bin n k) a)))%Z) (seq 0 n).
Proof.
  unfold np_histogram. apply map_ext. intros k. cbn [filter].
  destruct (in_bin n k v); cbn [length]; lia.
Qed.

Lemma Zsum_map_add (A : Type) (f g : A -> Z) (l : list A) :
  Zsum (map (fun k => (f k + g k)%Z) l) = (Zsum (map f l) + Zsum (map g l))%Z.
Proof.
  induction l as [|x l IH]; [reflexivity|].
  cbn [map Zsum fold_right]. fold (Zsum (map (fun k => (f k + g k)%Z) l)).
  fold (Zsum (map f l)). fold (Zsum (map g l)). lia.
Qed.

Lemma np_histogram_total (n : nat) (a : list Z) :
  (0 < n)%nat -> Forall (fun v => (0 <= v <= 255)%Z) a ->
  Zsum (np_histogram n a) = Z.of_nat (length a).
Proof.
  intros Hn. induction 1 as [|v a Hv Ha IH].
  - rewrite np_histogram_empty. clear Hn. induction n; simpl; auto.
  - rewrite np_histogram_cons, Zsum_map_add.
    fold (np_histogram n a). rewrite IH.
    destruct (bin_of_in_range Hn Hv) as (j & Hj & Hlt).
    assert (Hind : map (fun k => if in_bin n k v then 1%Z else 0%Z) (seq 0 n)
                   = map (fun k => if Nat.eqb j k then 1%Z else 0%Z)
                         (seq 0 n)).
    { apply map_ext. intros k. unfold in_bin. rewrite Hj. reflexivity. }
    rewrite Hind, Zsum_indicator.
    destruct (Nat.ltb_spec j (0 + n)); [|lia]. cbn [Nat.leb andb].
    cbn [length]. lia.
Qed.

Lemma total_of_counts (l : list Z) : total (map IZR l) = IZR (Zsum l).
Proof.
  induction l as [|x l IH]; [reflexivity|].
  cbn [map total fold_right Zsum]. fold (total (map IZR l)). fold (Zsum l).
  rewrite IH, plus_IZR. reflexivity.
Qed.

Lemma py_slice_length (A : Type) (start stop : Z) (l : list A) :
  (0 <= start <= stop)%Z -> (stop <= Z.of_nat (length l))%Z ->
  length (py_slice start stop l) = Z.to_nat (stop - start).
Proof.
  intros Hs He. unfold py_slice, slice_index.
  destruct (Z.ltb_spec start 0); [lia|].
  destruct (Z.ltb_spec stop 0); [lia|].
  rewrite !Z.min_l by lia.
  rewrite length_firstn, length_skipn. lia.
Qed.

Lemma py_slice_incl (A : Type) (start stop : Z) (l : list A) (x : A) :
  In x (py_slice start stop l) -> In x l.
Proof.
  unfold py_slice.
  set (a := Z.to_nat (slice_index (Z.of_nat (length l)) start)).
  set (n := Z.to_nat (slice_index (Z.of_nat (length l)) stop
                      - slice_index (Z.of_nat (length l)) start)).
  intros Hx.
  rewrite <- (firstn_skipn a l). apply in_or_app. right.
  rewrite <- (firstn_skipn n (skipn a l)). apply in_or_app. left. exact Hx.
Qed.

Lemma length_concat_uniform (A : Type) (rows : list (list A)) (w : nat) :
  Forall (fun r => length r = w) rows ->
  length (concat rows) = (length rows * w)%nat.
Proof.
  induction 1 as [|r rows Hr Hrows IH]; [reflexivity|].
  cbn [concat length]. rewrite length_app, IH, Hr. lia.
Qed.

(** X8.  For a non-empty rectangle [(x, y, w, h)] inside a frame of rows
    of [W] pixels with values in 0..255, [get_ROI] crops [h] rows of [w]
    pixels, its midpoint is [(x + w/2, y + h/2)], and the target histogram
    of [n_bins > 0] bins counts every pixel of the crop once: its entries
    sum to [w * h], which is positive. *)
Theorem target_histogram_counts_the_crop
    (x y w h : Z) (W : nat) (img : list (list Z)) (n : nat) :
  (0 < n)%nat ->
  Forall (fun line => length line = W) img ->
  Forall (Forall (fun v => (0 <= v <= 255)%Z)) img ->
  (0 <= x)%Z -> (0 <= y)%Z -> (0 < w)%Z -> (0 < h)%Z ->
  (x + w <= Z.of_nat W)%Z -> (y + h <= Z.of_nat (length img))%Z ->
  let t := @get_ROI R _ (x, y, w, h) img in
  length (image_gray t) = Z.to_nat h /\
  Forall (fun line => length line = Z.to_nat w) (image_gray t) /\
  target_midpoint_x t = (IZR x + IZR w / 2)%R /\
  target_midpoint_y t = (IZR y + IZR h / 2)%R /\
  np_sum (get_target_hist n t) = IZR (w * h) /\
  (0 < np_sum (get_target_hist n t))%R.
Proof.
  intros Hn Hrect Hpix Hx Hy Hw Hh HxW HyH t.
  assert (Hrows : length (py_slice y (y + h) img) = Z.to_nat h).
  { rewrite py_slice_length by lia. f_equal. lia. }
  assert (Hlines : Forall (fun line => length line = Z.to_nat w)
                          (image_gray t)).
  { subst t. cbn [get_ROI image_gray].
    apply Forall_map, Forall_forall. intros line Hline.
    apply py_slice_incl in Hline.
    rewrite Forall_forall in Hrect. specialize (Hrect line Hline).
    rewrite py_slice_length by lia. f_equal. lia. }
  assert (Hvals : Forall (fun v => (0 <= v <= 255)%Z)
                         (concat (image_gray t))).
  { subst t. cbn [get_ROI image_gray].
    apply Forall_concat, Forall_map, Forall_forall. intros line Hline.
    apply py_slice_incl in Hline.
    rewrite Forall_forall in Hpix. specialize (Hpix line Hline).
    apply Forall_forall. intros v Hv. apply py_slice_incl in Hv.
    rewrite Forall_forall in Hpix. auto. }
  assert (Hlen : length (image_gray t) = Z.to_nat h).
  { subst t. cbn [get_ROI image_gray]. rewrite length_map. exact Hrows. }
  assert (Hsum : np_sum (get_target_hist n t) = IZR (w * h)).
  { unfold get_target_hist. rewrite np_sum_exact. cbn [of_int exact].
    rewrite total_of_counts, np_histogram_total by assumption.
    rewrite (length_concat_uniform Hlines), Hlen. f_equal. lia. }
  split; [exact Hlen|]. split; [exact Hlines|].
  split; [|split; [|split]].
  - subst t. cbn. replace (x + w - x)%Z with w by lia. reflexivity.
  - subst t. cbn. replace (y + h - y)%Z with h by lia. reflexivity.
  - exact Hsum.
  - rewrite Hsum. apply IZR_lt. nia.
Qed.

(** X9.  Over the reals every particle gets a histogram of [n_bins]
    entries, and the histogram sums to the number of pixels of the
    particle's crop, for pixel values in 0..255 and [n_bins > 0]. *)
Theorem particle_histogram_counts_the_crop
    (t : target_ROI R) (n : nat) (img : list (list Z)) (s : list R) :
  (0 < n)%nat ->
  Forall (Forall (fun v => (0 <= v <= 255)%Z)) img ->
  exists box hist im_crop,
    particle_histogram t n img s = Some (box, hist) /\
    crop img box = Some im_crop /\
    length hist = n /\
    np_sum hist = INR (length (concat im_crop)).
Proof.
  intros Hn Hpix. unfold particle_histogram.
  destruct (crop img (box_around t (nth 0 s fzero) (nth 1 s fzero)))
    as [im_crop|] eqn:Hcrop; [|unfold crop in Hcrop; discriminate].
  do 3 eexists. split; [reflexivity|]. split; [exact Hcrop|].
  split.
  - unfold np_histogram. rewrite !length_map. apply length_seq.
  - assert (Hvals : Forall (fun v => (0 <= v <= 255)%Z) (concat im_crop)).
    { unfold crop in Hcrop. cbn [to_int exact] in Hcrop.
      injection Hcrop as <-.
      apply Forall_concat, Forall_map, Forall_forall. intros line Hline.
      apply py_slice_incl in Hline.
      rewrite Forall_forall in Hpix. specialize (Hpix line Hline).
      apply Forall_forall. intros v Hv. apply py_slice_incl in Hv.
      rewrite Forall_forall in Hpix. auto. }
    rewrite np_sum_exact. cbn [of_int exact].
    rewrite total_of_counts, np_histogram_total by assumption.
    rewrite INR_IZR_INZ. reflexivity.
Qed.

End Counting.

(** ** The initial population *)

Section Initial.
Local Open Scope R_scope.


End Initial.

(** ** Runs of the Hough tracker *)

Section HoughRuns.
Context {F : Type} `{Num F}.

Lemma list_set_other (A : Type) (l : list A) (i j : nat) (v : A) :
  i <> j -> nth_error (list_set l j v) i = nth_error l i.
Proof.
  revert i j; induction l as [|x l IH]; intros [|i] [|j] Hne; simpl;
    try reflexivity; try lia.
  apply IH. lia.
Qed.

Lemma np_get_some (A : Type) (a : list A) (i : Z) :
  (0 <= i < Z.of_nat (length a))%Z ->
  exists v, np_get a i = Ok v /\ nth_error a (Z.to_nat i) = Some v.
Proof.
  intros Hi.
  destruct (nth_error a (Z.to_nat i)) as [v|] eqn:Hv.
  - exists v. split; [|reflexivity]. apply np_get_in_range; [lia | exact Hv].
  - apply nth_error_None in Hv. lia.
Qed.

Lemma np_update_in_range (A : Type) (a : list A) (i : Z) (f : A -> A) :
  (0 <= i < Z.of_nat (length a))%Z ->
  exists v, nth_error a (Z.to_nat i) = Some v /\
            np_update a i f = Ok (list_set a (Z.to_nat i) (f v)).
Proof.
  intros Hi. unfold np_update.
  destruct (np_get_some a Hi) as (v & -> & Hv). cbn [bind].
  exists v. split; [exact Hv|]. apply np_put_in_range. exact Hi.
Qed.

Lemma select_circle_in_range (target_radius frame : Z)
    (circles : list (F * F * F)) (min_distance : F) (new_pos : F * F)
    (radius : list F) :
  (0 <= frame < Z.of_nat (length radius))%Z ->
  exists pos radius',
    select_circle target_radius frame circles min_distance new_pos radius
      = Ok (min_distance, pos, radius') /\
    length radius' = length radius /\
    forall i, i <> Z.to_nat frame -> nth_error radius' i = nth_error radius i.
Proof.
  revert new_pos radius.
  induction circles as [|[[cx cy] cr] circles IH]; intros new_pos radius Hf.
  - exists new_pos, radius. repeat split; reflexivity.
  - cbn [select_circle].
    destruct (fltb min_distance fzero
              || fltb (fabs (fsub cr (of_int target_radius))) min_distance).
    + rewrite np_put_in_range by exact Hf. cbn [bind].
      destruct (IH (cx, cy) (list_set radius (Z.to_nat frame) cr))
        as (pos & radius' & Hsel & Hlen & Hother).
      { rewrite list_set_length. exact Hf. }
      exists pos, radius'. split; [exact Hsel|]. split.
      * rewrite Hlen. apply list_set_length.
      * intros i Hi. rewrite Hother by exact Hi.
        apply list_set_other. exact Hi.
    + apply IH. exact Hf.
Qed.

(** One call on a frame for which the arrays have a row: it ends in
    [TypeError] or it succeeds, and then it has changed at most that row. *)
Lemma track_ball_hough_in_range (circles : option (list (F * F * F)))
    (target_radius : Z) (dt : F) (t : hough F) (k : nat) :
  (-1 <= frame_count t)%Z -> (frame_count t + 1 < Z.of_nat k)%Z ->
  length (ball_center t) = k -> length (ball_radius t) = k ->
  length (ball_center_vel t) = k ->
  track_ball_hough circles target_radius dt t = Raise TypeError \/
  exists t',
    track_ball_hough circles target_radius dt t = Ok t' /\
    frame_count t' = (frame_count t + 1)%Z /\
    length (ball_center t') = k /\ length (ball_radius t') = k /\
    length (ball_center_vel t') = k /\
    forall i, i <> Z.to_nat (frame_count t + 1) ->
      nth_error (ball_center t') i = nth_error (ball_center t) i /\
      nth_error (ball_radius t') i = nth_error (ball_radius t) i /\
      nth_error (ball_center_vel t') i = nth_error (ball_center_vel t) i.
Proof.
  intros Hlow Hhigh Hc Hr Hv. unfold track_ball_hough.
  set (frame := (frame_count t + 1)%Z).
  destruct circles as [cs|].
  2:{ right. eexists. split; [reflexivity|]. cbn. repeat split; auto. }
  assert (Hfirst : exists p0,
             (if (0 <? frame)%Z then np_get (ball_center t) (frame - 1)
              else Ok (fzero, fzero)) = Ok p0).
  { destruct (Z.ltb_spec 0 frame); [|eauto].
    destruct (@np_get_some _ (ball_center t) (frame - 1)) as (p & Hp & _);
      [lia | eauto]. }
  destruct Hfirst as (p0 & ->). cbn [bind].
  destruct (@select_circle_in_range target_radius frame cs (of_int (-1)) p0
              (ball_radius t)) as (pos & radius' & -> & Hlen & Hother);
    [lia|]. cbn [bind].
  cbv beta iota.
  destruct (Z.ltb_spec 0 frame) as [Hpos|Hzero].
  - destruct (@np_get_some _ radius' frame) as (r & -> & _); [lia|].
    cbn [bind].
    destruct (@np_get_some _ (ball_center t) (frame - 1)) as (prev & -> & _);
      [lia|]. cbn [bind].
    destruct (fltb fzero r); cbn [mul_cm bind]; [|left; reflexivity].
    match goal with
    | |- context [np_update (ball_center_vel t) frame ?f] =>
        destruct (@np_update_in_range _ (ball_center_vel t) frame f)
          as (v1 & _ & ->); [lia|]
    end.
    cbn [bind].
    match goal with
    | |- context [np_update ?a frame ?f] =>
        destruct (@np_update_in_range _ a frame f) as (v2 & _ & ->);
          [rewrite list_set_length; lia|]
    end.
    cbn [bind]. rewrite np_put_in_range by lia. cbn [bind].
    right. eexists. split; [reflexivity|]. cbn.
    rewrite !list_set_length.
    repeat split; auto; try lia;
      rewrite ?list_set_other by assumption; auto.
  - cbn [bind]. rewrite np_put_in_range by lia. cbn [bind].
    right. eexists. split; [reflexivity|]. cbn.
    rewrite list_set_length.
    repeat split; auto; try lia;
      rewrite ?list_set_other by assumption; auto.
Qed.

Lemma run_hough_in_range (target_radius : Z)
    (frames : list (option (list (F * F * F)) * F)) (t : hough F) (k : nat) :
  (-1 <= frame_count t)%Z ->
  (frame_count t + 1 + Z.of_nat (length frames) <= Z.of_nat k)%Z ->
  length (ball_center t) = k -> length (ball_radius t) = k ->
  length (ball_center_vel t) = k ->
  run_hough target_radius frames t = Raise TypeError \/
  exists t',
    run_hough target_radius frames t = Ok t' /\
    frame_count t' = (frame_count t + Z.of_nat (length frames))%Z /\
    length (ball_center t') = k /\ length (ball_radius t') = k /\
    length (ball_center_vel t') = k /\
    forall i, (Z.of_nat i <= frame_count t)%Z \/
              (frame_count t + Z.of_nat (length frames) < Z.of_nat i)%Z ->
      nth_error (ball_center t') i = nth_error (ball_center t) i /\
      nth_error (ball_radius t') i = nth_error (ball_radius t) i /\
      nth_error (ball_center_vel t') i = nth_error (ball_center_vel t) i.
Proof.
  revert t. induction frames as [|[circles dt] frames IH]; intros t.
  - intros _ _ Hc Hr Hv. right. exists t. cbn [run_hough length Z.of_nat].
    rewrite Z.add_0_r. repeat split; auto.
  - intros Hlow Hhigh Hc Hr Hv. cbn [run_hough].
    change (length ((circles, dt) :: frames)) with (S (length frames)) in *.
    destruct (@track_ball_hough_in_range circles target_radius dt t k)
      as [-> | (t1 & -> & Hf1 & Hc1 & Hr1 & Hv1 & Hsame1)];
      try assumption; try lia; [left; reflexivity|].
    cbn [bind].
    destruct (IH t1) as [-> | (t' & -> & Hf' & Hc' & Hr' & Hv' & Hsame')];
      try assumption; try lia; [left; reflexivity|].
    right. exists t'. split; [reflexivity|].
    split; [lia|]. repeat (split; [assumption|]).
    intros i Hi.
    destruct (Hsame' i ltac:(lia)) as (E1 & E2 & E3).
    destruct (Hsame1 i ltac:(lia)) as (G1 & G2 & G3).
    rewrite E1, E2, E3. auto.
Qed.

Lemma run_hough_app (target_radius : Z)
    (before after : list (option (list (F * F * F)) * F)) (t : hough F) :
  run_hough target_radius (before ++ after) t
  = bind (run_hough target_radius before t) (run_hough target_radius after).
Proof.
  revert t. induction before as [|[circles dt] before IH]; intros t;
    [reflexivity|].
  cbn [app run_hough].
  destruct (track_ball_hough circles target_radius dt t); cbn [bind];
    [apply IH | reflexivity].
Qed.

(** X11.  A run of [track_ball_hough] over at most [frames_to_process]
    frames, from the arrays that the constructor allocates, never raises
    [IndexError]: it ends in [TypeError], or it succeeds with
    [frame_count] at the index of the last frame, the arrays at their
    length, and the rows of the frames not yet reached still zero. *)
Theorem run_hough_stays_in_bounds (target_radius : Z)
    (frames : list (option (list (F * F * F)) * F)) (k : nat) :
  length frames <= k ->
  run_hough target_radius frames (hough_init k) = Raise TypeError \/
  exists t',
    run_hough target_radius frames (hough_init k) = Ok t' /\
    frame_count t' = (Z.of_nat (length frames) - 1)%Z /\
    length (ball_center t') = k /\ length (ball_radius t') = k /\
    length (ball_center_vel t') = k /\
    forall i, length frames <= i < k ->
      nth_error (ball_center t') i = Some (fzero, fzero) /\
      nth_error (ball_radius t') i = Some fzero /\
      nth_error (ball_center_vel t') i = Some (fzero, fzero).
Proof.
  intros Hk.
  destruct (@run_hough_in_range target_radius frames (hough_init k) k)
    as [-> | (t' & -> & Hf & Hc & Hr & Hv & Hsame)];
    try (cbn; rewrite ?repeat_length; reflexivity); try (cbn; lia);
    [left; reflexivity|].
  right. exists t'. split; [reflexivity|].
  cbn [hough_init frame_count] in Hf, Hsame.
  split; [lia|]. repeat (split; [assumption|]).
  intros i Hi. destruct (Hsame i ltac:(lia)) as (E1 & E2 & E3).
  rewrite E1, E2, E3. cbn [hough_init ball_center ball_radius ball_center_vel].
  rewrite !nth_error_repeat by lia. auto.
Qed.

(** X12.  What a run has recorded for a frame is final: continuing a run
    on later frames leaves the rows of the earlier frames as they are. *)
Theorem run_hough_keeps_history (target_radius : Z)
    (before after : list (option (list (F * F * F)) * F)) (k : nat)
    (t2 : hough F) :
  length (before ++ after) <= k ->
  run_hough target_radius (before ++ after) (hough_init k) = Ok t2 ->
  exists t1,
    run_hough target_radius before (hough_init k) = Ok t1 /\
    forall i, i < length before ->
      nth_error (ball_center t2) i = nth_error (ball_center t1) i /\
      nth_error (ball_radius t2) i = nth_error (ball_radius t1) i /\
      nth_error (ball_center_vel t2) i = nth_error (ball_center_vel t1) i.
Proof.
  intros Hk Hrun. rewrite length_app in Hk. rewrite run_hough_app in Hrun.
  destruct (@run_hough_in_range target_radius before (hough_init k) k)
    as [Hb | (t1 & Hb & Hf & Hc & Hr & Hv & _)];
    try (cbn; rewrite ?repeat_length; reflexivity); try (cbn; lia).
  { rewrite Hb in Hrun. discriminate Hrun. }
  rewrite Hb in Hrun. cbn [bind] in Hrun. exists t1. split; [exact Hb|].
  cbn [hough_init frame_count] in Hf.
  destruct (@run_hough_in_range target_radius after t1 k)
    as [Ha | (t' & Ha & _ & _ & _ & _ & Hsame)]; try assumption; try lia.
  { rewrite Ha in Hrun. discriminate Hrun. }
  rewrite Ha in Hrun. injection Hrun as <-.
  intros i Hi. apply Hsame. lia.
Qed.

End HoughRuns.

(** ** The velocity of the Hough tracker *)

Section HoughVelocity.
Local Open Scope float_scope.

(** X13.  On a frame after the first, when the last detected circle
    [(cx, cy, r)] has a positive radius, the call succeeds and records the
    circle as the position and radius of the frame, and as velocity the
    displacement from the recorded position of the frame before, divided
    by [dt] and multiplied by [4 / (2 r)]. *)
Theorem track_ball_hough_velocity
    (circles : list (float * float * float)) (cx cy r px py : float)
    (target_radius : Z) (dt : float) (t : hough float) :
  (0 <= frame_count t)%Z ->
  (frame_count t + 1 < Z.of_nat (length (ball_center t)))%Z ->
  (frame_count t + 1 < Z.of_nat (length (ball_radius t)))%Z ->
  (frame_count t + 1 < Z.of_nat (length (ball_center_vel t)))%Z ->
  nth_error (ball_center t) (Z.to_nat (frame_count t)) = Some (px, py) ->
  (0 <? r) = true ->
  exists t',
    track_ball_hough (Some (circles ++ [(cx, cy, r)])) target_radius dt t
      = Ok t' /\
    frame_count t' = (frame_count t + 1)%Z /\
    nth_error (ball_center t') (Z.to_nat (frame_count t + 1))
      = Some (cx, cy) /\
    nth_error (ball_radius t') (Z.to_nat (frame_count t + 1)) = Some r /\
    nth_error (ball_center_vel t') (Z.to_nat (frame_count t + 1))
      = Some ((cx - px) / dt * (4 / (2 * r)),
              (cy - py) / dt * (4 / (2 * r))).
Proof.
  intros Hframe Hc Hr Hv Hprev Hpos. unfold track_ball_hough.
  destruct (Z.ltb_spec 0 (frame_count t + 1)) as [_|]; [|lia].
  replace (frame_count t + 1 - 1)%Z with (frame_count t) by lia.
  rewrite (np_get_in_range _ Hframe Hprev). cbn [bind].
  rewrite select_circle_ends_on_last by (reflexivity || lia).
  cbn [bind fst snd].
  rewrite (@np_get_in_range _ _ (frame_count t + 1) r)
    by (lia || (apply list_set_nth_error; lia)).
  cbn [bind]. cbn [fltb binary64 fzero]. rewrite Hpos. cbn [mul_cm bind].
  destruct (@np_update_in_range _ (ball_center_vel t) (frame_count t + 1)
              (fun v => ((cx - px) / dt
                         * (float_of_int PINGPONG_DIAMETER_CM
                            / (float_of_int 2 * r)), snd v)))
    as (v1 & _ & Hv1); [lia|].
  cbn [fsub fdiv fmul of_int binary64] in *. rewrite Hv1. cbn [bind].
  match goal with
  | |- context [np_update ?a (frame_count t + 1)%Z ?f] =>
      destruct (@np_update_in_range _ a (frame_count t + 1) f)
        as (v2 & Hv2 & ->); [rewrite list_set_length; lia|]
  end.
  rewrite list_set_nth_error in Hv2 by lia. injection Hv2 as <-.
  cbn [bind]. rewrite np_put_in_range by lia. cbn [bind].
  eexists. split; [reflexivity|].
  cbn [frame_count ball_center ball_radius ball_center_vel].
  split; [reflexivity|].
  split; [apply list_set_nth_error; lia|].
  split; [apply list_set_nth_error; lia|].
  rewrite list_set_twice, list_set_nth_error by lia.
  reflexivity.
Qed.

End HoughVelocity.

(** ** The frame list and the time steps *)

Section Frames.
Local Open Scope R_scope.

Lemma diff_from_length (F : Type) (NF : Num F) (previous : F) (a : list F) :
  length (diff_from previous a) = length a.
Proof.
  revert previous; induction a as [|x a IH]; intros previous; simpl;
    [reflexivity|]. rewrite IH. reflexivity.
Qed.





Lemma combine_repeat (A B : Type) (l : list A) (b : B) :
  combine l (repeat b (length l)) = map (fun a => (a, b)) l.
Proof. induction l as [|a l IH]; simpl; [|rewrite IH]; reflexivity. Qed.

(** X15.  With a non-zero [frame_period] every frame of the list is kept
    and paired with that period.  Without one, and also with a period of
    zero, the frames are paired with the steps of the time stamps, and the
    frames beyond the number of time stamps are dropped. *)
Theorem image_dt_list_pairs (A : Type) (F : Type) (NF : Num F)
    (framelist : list A) (period : F) (first : F) (others : list F) :
  image_dt_list framelist (Some period) (first :: others)
  = (if is_zero period
     then image_dt_list framelist None (first :: others)
     else map (fun frame => (frame, period)) framelist) /\
  map fst (image_dt_list framelist None (first :: others))
  = firstn (S (length others)) framelist.
Proof.
  unfold image_dt_list. split.
  - destruct (is_zero period); [reflexivity | apply combine_repeat].
  - assert (Hlen : length (read_timestamps (first :: others))
                   = S (length others)).
    { unfold read_timestamps. cbn [np_diff length].
      rewrite diff_from_length. reflexivity. }
    revert Hlen. generalize (read_timestamps (first :: others)).
    generalize (S (length others)). intros n dt. revert n dt.
    induction framelist as [|frame framelist IH]; intros n dt Hlen.
    + rewrite firstn_nil. reflexivity.
    + destruct dt as [|d dt]; cbn [length] in Hlen; subst n; [reflexivity|].
      cbn [combine map fst firstn]. f_equal. apply IH. reflexivity.
Qed.

Lemma np_get_nonneg (A : Type) (l : list A) (i : Z) (x : A) :
  (0 <= i)%Z -> nth_error l (Z.to_nat i) = Some x -> np_get l i = Ok x.
Proof. intros Hi Hx. apply np_get_in_range; assumption. Qed.

(** X16.  For a [start_image] that is an index of the frame list, the
    frame that the tracker is constructed on is the frame at
    [start_image], and the frames of the loop are the frames after it: all
    of them when [end_image] is negative, and those up to index
    [end_image] otherwise.  The frames before [start_image] are not
    used. *)
Theorem considered_list_follows_first_image
    (A : Type) (start_image end_image : Z) (frames : list A) :
  (0 <= start_image < Z.of_nat (length frames))%Z ->
  exists first,
    first_image start_image frames = Ok first /\
    skipn (Z.to_nat start_image) frames
      = first :: skipn (S (Z.to_nat start_image)) frames /\
    considered_list start_image end_image frames
      = if (end_image <? 0)%Z
        then skipn (S (Z.to_nat start_image)) frames
        else firstn (Z.to_nat (end_image - start_image))
                    (skipn (S (Z.to_nat start_image)) frames).
Proof.
  intros Hs.
  destruct (nth_error frames (Z.to_nat start_image)) as [first|] eqn:Hfirst;
    [|apply nth_error_None in Hfirst; lia].
  exists first. split; [apply np_get_nonneg; [lia | exact Hfirst]|].
  split.
  - clear Hs. revert Hfirst. generalize (Z.to_nat start_image). intros n.
    revert frames. induction n as [|n IH]; intros [|x frames] Hn;
      try discriminate.
    + injection Hn as ->. reflexivity.
    + cbn [skipn]. apply IH. exact Hn.
  - unfold considered_list, py_slice, slice_index.
    destruct (Z.ltb_spec (start_image + 1) 0); [lia|].
    rewrite (Z.min_l (start_image + 1)) by lia.
    replace (Z.to_nat (start_image + 1)) with (S (Z.to_nat start_image))
      by lia.
    destruct (Z.ltb_spec end_image 0) as [Hneg|Hpos].
    + destruct (Z.ltb_spec (Z.of_nat (length frames)) 0); [lia|].
      rewrite Z.min_id. apply firstn_all2. rewrite length_skipn. lia.
    + destruct (Z.ltb_spec (end_image + 1) 0); [lia|].
      destruct (Z.le_gt_cases (end_image + 1) (Z.of_nat (length frames))).
      * rewrite Z.min_l by lia. f_equal. lia.
      * rewrite Z.min_r by lia.
        rewrite !firstn_all2 by (rewrite length_skipn; lia). reflexivity.
Qed.

End Frames.

(** ** A particle inside the frame *)

Section Inside.
Local Open Scope R_scope.







End Inside.

(** ** The number of a frame name *)

Section Names.

Lemma take_digits_of_run (ds rest : list ascii) :
  Forall (fun c => is_digit c = true) ds ->
  match rest with [] => True | c :: _ => is_digit c = false end ->
  take_digits (ds ++ rest) = (ds, rest).
Proof.
  induction 1 as [|d ds Hd Hds IH]; intros Hrest.
  - destruct rest as [|c rest]; [reflexivity|]. cbn [app take_digits].
    rewrite Hrest. reflexivity.
  - cbn [app take_digits]. rewrite Hd, IH by exact Hrest. reflexivity.
Qed.

Lemma search_number_without_digits (name : list ascii) :
  Forall (fun c => is_digit c = false) name -> search_number name = None.
Proof.
  induction 1 as [|c name Hc Hname IH]; [reflexivity|].
  cbn [search_number take_digits]. rewrite Hc. exact IH.
Qed.

Lemma int_of_digits_from (ds : list ascii) (acc : Z) :
  (0 <= acc)%Z ->
  (0 <= fold_left (fun a c => (10 * a + Z.of_nat (nat_of_ascii c - 48))%Z)
                  ds acc)%Z.
Proof.
  revert acc; induction ds as [|d ds IH]; intros acc Hacc; [exact Hacc|].
  cbn [fold_left]. apply IH. lia.
Qed.

(** X18.  [extract_number] returns the number written right before
    [.png]: for a name that consists of a part without digits, a
    non-empty run of digits and [.png], possibly followed by more, it is
    the decimal value of the digits, which is not negative; a name
    without any digit has the number -1. *)
Theorem extract_number_of_frame_name
    (before digits after : list ascii) :
  Forall (fun c => is_digit c = false) before ->
  digits <> [] -> Forall (fun c => is_digit c = true) digits ->
  extract_number (before ++ digits ++ dot_png ++ after)
    = int_of_digits digits /\
  (0 <= int_of_digits digits)%Z /\
  extract_number before = (-1)%Z.
Proof.
  intros Hbefore Hne Hdigits. split; [|split].
  - unfold extract_number.
    assert (Hfound : search_number (before ++ digits ++ dot_png ++ after)
                     = Some digits).
    { induction Hbefore as [|c before Hc Hb IH].
      - destruct digits as [|d ds]; [contradiction|].
        cbn [app search_number].
        change (d :: ds ++ dot_png ++ after)
          with ((d :: ds) ++ dot_png ++ after).
        rewrite take_digits_of_run by (assumption || reflexivity).
        reflexivity.
      - cbn [app search_number take_digits]. rewrite Hc. exact IH. }
    rewrite Hfound. reflexivity.
  - apply int_of_digits_from. lia.
  - unfold extract_number.
    rewrite search_number_without_digits by exact Hbefore. reflexivity.
Qed.

End Names.

(** ** The further theorems at the sample inputs *)

Lemma update_particles_keeps_population_witness :
  exists t',
    update_particles gaussian_pdf sample_frame (fun _ => (1 / 2)%R)
                     (@sample_tracker R _) = Some t' /\
    length (current_state t') = 2%nat.
Proof.
  destruct (@update_particles_some R _ gaussian_pdf sample_frame
              (fun _ => (1 / 2)%R) sample_tracker) as [t' Hrun].
  - discriminate.
  - intros s _. unfold crop. cbn [to_int exact]. discriminate.
  - exists t'. split; [exact Hrun|].
    apply (@update_particles_keeps_population R _ gaussian_pdf sample_frame
             (fun _ => (1 / 2)%R) sample_tracker t');
      [cbn; lia | reflexivity | exact Hrun].
Defined.

Lemma update_particles_raises_iff_witness :
  update_particles gaussian_pdf sample_frame (fun _ => (1 / 2)%R)
                   (@sample_tracker R _) <> None.
Proof.
  intros Hnone.
  apply (@update_particles_raises_iff R _ gaussian_pdf sample_frame
           (fun _ => (1 / 2)%R) sample_tracker) in Hnone;
    [|cbn; lia | reflexivity].
  destruct Hnone as [Hsigma | (s & _ & Hcrop)]; [discriminate|].
  unfold crop in Hcrop. cbn [to_int exact] in Hcrop. discriminate.
Defined.



Lemma hellinger_scale_invariant_witness :
  compute_hellinger_distance (map (map (Rmult 2)) [[1; 1]%R]) [1; 3]%R
  = compute_hellinger_distance [[1; 1]%R] [1; 3]%R.
Proof.
  apply (@hellinger_scale_invariant 2 [[1; 1]%R] [1; 3]%R).
  - repeat constructor.
  - lra.
  - repeat constructor. cbn. lra.
  - cbn. lra.
Defined.

Lemma target_histogram_counts_the_crop_witness :
  np_sum (get_target_hist 4 (@get_ROI R _ (0, 0, 2, 2)%Z sample_frame))
  = IZR (2 * 2).
Proof.
  apply (@target_histogram_counts_the_crop 0 0 2 2 3 sample_frame 4);
    try lia; try (cbn; lia).
  - repeat constructor.
  - repeat constructor; lia.
Defined.

Lemma particle_histogram_counts_the_crop_witness :
  exists box hist im_crop,
    particle_histogram (@sample_roi R _) 4 sample_frame [1; 1; 0; 0]%R
      = Some (box, hist) /\
    crop sample_frame box = Some im_crop /\
    np_sum hist = INR (length (concat im_crop)).
Proof.
  destruct (@particle_histogram_counts_the_crop sample_roi 4 sample_frame
              [1; 1; 0; 0]%R) as (box & hist & im_crop & H1 & H2 & _ & H3).
  - lia.
  - repeat constructor; lia.
  - exists box, hist, im_crop. auto.
Defined.


Lemma run_hough_stays_in_bounds_witness :
  run_hough 26 hough_frames (hough_init 2) <> Raise IndexError.
Proof.
  destruct (@run_hough_stays_in_bounds float _ 26 hough_frames 2)
    as [Hrun | (t' & Hrun & _)].
  - simpl. lia.
  - rewrite Hrun. discriminate.
  - rewrite Hrun. discriminate.
Defined.

Lemma run_hough_keeps_history_witness :
  exists t1 t2,
    run_hough 26 hough_frames (hough_init 2) = Ok t2 /\
    run_hough 26 [(Some [(10, 10, 26)], 0.5)]%float (hough_init 2) = Ok t1 /\
    nth_error (ball_center t2) 0 = nth_error (ball_center t1) 0.
Proof.
  destruct (run_hough 26 hough_frames (@hough_init float _ 2))
    as [t2|e] eqn:Hrun; [|vm_compute in Hrun; discriminate].
  destruct (@run_hough_keeps_history float _ 26
              [(Some [(10, 10, 26)], 0.5)]%float [(None, 0.5)]%float 2 t2)
    as (t1 & Hrun1 & Hsame).
  - simpl. lia.
  - exact Hrun.
  - exists t1, t2. split; [reflexivity|]. split; [exact Hrun1|].
    apply (Hsame 0%nat). simpl. lia.
Defined.

Lemma track_ball_hough_velocity_witness :
  exists t',
    track_ball_hough (Some [(10, 10, 26)]%float) 26 0.5%float hough_after_one
      = Ok t' /\
    nth_error (ball_center_vel t') 1
      = Some ((10 - 8) / 0.5 * (4 / (2 * 26)),
              (10 - 8) / 0.5 * (4 / (2 * 26)))%float.
Proof.
  destruct (@track_ball_hough_velocity [] 10 10 26 8 8 26 0.5 hough_after_one)
    as (t' & Hrun & _ & _ & _ & Hvel);
    try (simpl; lia); try reflexivity.
  exists t'. split; [exact Hrun | exact Hvel].
Defined.

Lemma considered_list_follows_first_image_witness :
  first_image 1 [10; 20; 30; 40]%Z = Ok 20%Z /\
  considered_list 1 (-1) [10; 20; 30; 40]%Z = [30; 40]%Z.
Proof.
  destruct (@considered_list_follows_first_image Z 1 (-1) [10; 20; 30; 40]%Z)
    as (first & Hfirst & _ & Hrest).
  - simpl. lia.
  - split; [reflexivity | exact Hrest].
Defined.


Lemma extract_number_of_frame_name_witness :
  extract_number (sample_name_stem ++ sample_name_digits ++ dot_png ++ [])
  = 12%Z.
Proof.
  destruct (@extract_number_of_frame_name sample_name_stem sample_name_digits
              []) as (Hnumber & _ & _).
  - repeat constructor.
  - discriminate.
  - repeat constructor.
  - rewrite Hnumber. reflexivity.
Defined.
